(** * go-and-compose: the item API server and its process life cycle

    A shallow embedding of the Go program of this repository
    ([main.go], and the packages [apiserver] and [storage] as the README
    gives them), with the properties of its specification proved or
    refuted against it.

    The Go packages become modules of the same name.  What the program
    imports but does not define (database/sql with the Postgres table of
    the migration, net/http, gorilla/mux, logrus, the Go scheduler and the
    operating system's signals) is modelled as the environment, just far
    enough to run the program's own code. *)

From Stdlib Require Import ZArith String Ascii List Lia Bool.
From stdpp Require Import base list strings gmap.
Import ListNotations.

Local Open Scope Z_scope.

(** ** Go values shared by all packages *)

(** A Go [error] value.  The sentinels of the standard library are
    compared by identity in Go, so each is a constructor of its own and
    differs from an [errors.New] value with the same text. *)
Inductive error : Type :=
| errorString (s : string)                 (* errors.New(s), driver errors *)
| wrapError (msg : string) (err : error)   (* fmt.Errorf("...: %w", err) *)
| ErrServerClosed                          (* http.ErrServerClosed *)
| DeadlineExceeded                         (* context.DeadlineExceeded *)
| Canceled                                 (* context.Canceled *)
| ErrNoRows.                               (* sql.ErrNoRows *)

(** A Go function result [(T, error)]. *)
Inductive Result (A : Type) : Type :=
| Ok (a : A)
| Err (err : error).
Arguments Ok {A} a.
Arguments Err {A} err.

Module errors.
Definition New (text : string) : error := errorString text.

(** [err.Error()] *)
Definition Error (err : error) : string :=
  match err with
  | errorString s => s
  | wrapError msg _ => msg
  | ErrServerClosed => "http: Server closed"
  | DeadlineExceeded => "context deadline exceeded"
  | Canceled => "context canceled"
  | ErrNoRows => "sql: no rows in result set"
  end.

Definition Unwrap (err : error) : option error :=
  match err with
  | wrapError _ inner => Some inner
  | _ => None
  end.

(** [a == b] on error values. *)
Fixpoint error_eqb (a b : error) : bool :=
  match a, b with
  | errorString s, errorString t => String.eqb s t
  | wrapError m x, wrapError n y => String.eqb m n && error_eqb x y
  | ErrServerClosed, ErrServerClosed => true
  | DeadlineExceeded, DeadlineExceeded => true
  | Canceled, Canceled => true
  | ErrNoRows, ErrNoRows => true
  | _, _ => false
  end.
End errors.

Module fmt.
(** [fmt.Errorf(prefix + "%w", err)]: the only shape of [Errorf] the
    program uses. *)
Definition Errorf (prefix : string) (err : error) : error :=
  wrapError (prefix +:+ errors.Error err) err.
End fmt.

Module time.
(** [time.Duration] is an int64 count of nanoseconds. *)
Definition Duration := Z.
Definition Nanosecond : Duration := 1.
Definition Second : Duration := 1000000000 * Nanosecond.
End time.

Module context.
(** A [context.Context]: the time it still has, when it carries a
    deadline, and what [ctx.Err()] reports. *)
Record Context := {
  timeout : option time.Duration;
  err : option error
}.

Definition Background : Context := {| timeout := None; err := None |}.

(** [context.WithTimeout(parent, d)].  The [cancel] function it also
    returns only releases the timer and is not modelled. *)
Definition WithTimeout (parent : Context) (d : time.Duration) : Context :=
  {| timeout := Some match timeout parent with
                     | Some t => Z.min t d
                     | None => d
                     end;
     err := err parent |}.
End context.

Module logrus.
Inductive Level := InfoLevel | ErrorLevel | FatalLevel.

Inductive FieldValue :=
| StringValue (s : string)
| DurationValue (d : time.Duration).

Record Entry := {
  level : Level;
  message : string;
  error_field : option error;             (* WithError(err) *)
  fields : list (string * FieldValue)     (* WithField(key, value) *)
}.
End logrus.

(** ** The environment of the request handlers *)

Module sql.

(** One row of the table the migration creates:
    [CREATE TABLE items(id uuid DEFAULT public.gen_random_uuid() NOT NULL,
                        name character varying NOT NULL)]. *)
Record Tuple := {
  id : string;
  name : string
}.

(** The text form of the uuid that [gen_random_uuid()] makes of 128 random
    bits: version 4, variant 1, printed as 8-4-4-4-12 hexadecimal digits. *)
Definition hexdigit (n : Z) : ascii :=
  nth (Z.to_nat n) (list_ascii_of_string "0123456789abcdef") "0"%char.

Definition hexbyte (b : Z) : string :=
  String (hexdigit (Z.shiftr b 4)) (String (hexdigit (Z.land b 15)) EmptyString).

Definition uuid_byte (r : Z) (i : nat) : Z :=
  let b := Z.land (Z.shiftr r (8 * (15 - Z.of_nat i))) 255 in
  match i with
  | 6%nat => Z.lor (Z.land b 15) 64
  | 8%nat => Z.lor (Z.land b 63) 128
  | _ => b
  end.

Definition uuid_group (r : Z) (from len : nat) : string :=
  fold_right (fun i s => hexbyte (uuid_byte r i) +:+ s) EmptyString (seq from len).

Definition gen_random_uuid (r : Z) : string :=
  uuid_group r 0 4 +:+ "-" +:+ uuid_group r 4 2 +:+ "-" +:+ uuid_group r 6 2
  +:+ "-" +:+ uuid_group r 8 2 +:+ "-" +:+ uuid_group r 10 6.

(** What can go wrong on one round trip to the server. *)
Inductive Fault :=
| StmtFault (e : error)             (* the statement fails: connection lost, constraint violated *)
| ScanFault (n : nat) (e : error)   (* row [n] of the result cannot be converted by Scan *)
| IterFault (n : nat) (e : error).  (* the result breaks off after [n] rows; rows.Err() reports [e] *)

(** What the environment contributes to one round trip. *)
Record Trip := {
  fault : option Fault;
  random : Z                        (* the random bits gen_random_uuid() draws *)
}.

(** The database behind a [*sql.DB] handle. *)
Record Backend := {
  items : list Tuple;               (* the rows of table items, in heap order *)
  accepts : string -> bool;         (* the texts the server takes for column name *)
  trips : nat -> Trip;              (* the environment's part in the n-th round trip *)
  served : nat;                     (* round trips made so far *)
  cursors : nat                     (* result sets opened and not yet closed *)
}.

(** [*sql.DB], as returned by [sql.Open]. *)
Record DB := {
  driverName : string;
  dataSourceName : string
}.

(** [*sql.Rows]: the row under the cursor and the rows still to come; a
    row either converts into an (id, name) pair or fails to. *)
Record Rows := {
  current : option (Result Tuple);
  pending : list (Result Tuple);
  lasterr : option error
}.

(** [*sql.Row] *)
Record Row := {
  row_err : option error;
  row_rows : option Rows
}.

Definition tick (b : Backend) : Backend :=
  {| items := items b; accepts := accepts b; trips := trips b;
     served := S (served b); cursors := cursors b |}.

Definition store (t : Tuple) (b : Backend) : Backend :=
  {| items := items b ++ [t]; accepts := accepts b; trips := trips b;
     served := served b; cursors := cursors b |}.

Definition open_cursor (b : Backend) : Backend :=
  {| items := items b; accepts := accepts b; trips := trips b;
     served := served b; cursors := S (cursors b) |}.

Definition close_cursor (b : Backend) : Backend :=
  {| items := items b; accepts := accepts b; trips := trips b;
     served := served b; cursors := pred (cursors b) |}.

(** The server executing one statement.  It knows the two statements the
    program sends. *)
Definition execute (random : Z) (query : string) (args : list string) (b : Backend)
  : Result (list Tuple) * Backend :=
  if String.eqb query "INSERT INTO items(name) VALUES($1) RETURNING id, name" then
    match args with
    | [n] =>
        if accepts b n then
          let t := {| id := gen_random_uuid random; name := n |} in
          (Ok [t], store t b)
        else (Err (errorString "pq: invalid value for column name"), b)
    | _ => (Err (errorString "pq: wrong number of parameters"), b)
    end
  else if String.eqb query "SELECT id, name FROM items" then
    (Ok (items b), b)
  else (Err (errorString "pq: syntax error"), b).

Definition result_set (f : option Fault) (ts : list Tuple) : Rows :=
  match f with
  | Some (ScanFault n e) =>
      {| current := None; pending := <[n := Err e]> (map Ok ts); lasterr := None |}
  | Some (IterFault n e) =>
      {| current := None; pending := take n (map Ok ts); lasterr := Some e |}
  | _ =>
      {| current := None; pending := map Ok ts; lasterr := None |}
  end.

(** [db.QueryContext(ctx, query, args...)] *)
Definition QueryContext (db : DB) (ctx : context.Context) (query : string)
    (args : list string) (b : Backend) : Result Rows * Backend :=
  match context.err ctx with
  | Some e => (Err e, b)
  | None =>
      let trip := trips b (served b) in
      let b := tick b in
      match fault trip with
      | Some (StmtFault e) => (Err e, b)
      | f =>
          match execute (random trip) query args b with
          | (Err e, b) => (Err e, b)
          | (Ok ts, b) => (Ok (result_set f ts), open_cursor b)
          end
      end
  end.

(** [db.QueryRowContext(ctx, query, args...)] *)
Definition QueryRowContext (db : DB) (ctx : context.Context) (query : string)
    (args : list string) (b : Backend) : Row * Backend :=
  match QueryContext db ctx query args b with
  | (Err e, b) => ({| row_err := Some e; row_rows := None |}, b)
  | (Ok rows, b) => ({| row_err := None; row_rows := Some rows |}, b)
  end.

(** [rows.Next()]: whether there is a next row, and the cursor on it. *)
Definition Next (rs : Rows) : bool * Rows :=
  match pending rs with
  | [] => (false, {| current := None; pending := []; lasterr := lasterr rs |})
  | c :: tl => (true, {| current := Some c; pending := tl; lasterr := lasterr rs |})
  end.

(** [rows.Scan(&id, &name)] *)
Definition Rows_Scan (rs : Rows) : Result Tuple :=
  match current rs with
  | Some c => c
  | None => Err (errorString "sql: Scan called without calling Next")
  end.

(** [rows.Close()] *)
Definition Rows_Close (rs : Rows) (b : Backend) : unit * Backend :=
  (tt, close_cursor b).

(** [row.Scan(&id, &name)]: the deferred error of the query, else the
    first row of the result, and the result set is closed. *)
Definition Row_Scan (r : Row) (b : Backend) : Result Tuple * Backend :=
  match row_err r, row_rows r with
  | Some e, _ => (Err e, b)
  | None, None => (Err ErrNoRows, b)
  | None, Some rows =>
      match Next rows with
      | (false, rows) =>
          (Err match lasterr rows with Some e => e | None => ErrNoRows end,
           close_cursor b)
      | (true, rows) => (Rows_Scan rows, close_cursor b)
      end
  end.

End sql.

Module http.

Definition StatusOK : Z := 200.
Definition StatusCreated : Z := 201.
Definition StatusNotFound : Z := 404.
Definition StatusMethodNotAllowed : Z := 405.
Definition StatusInternalServerError : Z := 500.

(** [*http.Request], after the server has parsed it. *)
Record Request := {
  Method : string;
  Path : string;                        (* req.URL.Path *)
  PostForm : gmap string (list string); (* the fields of the request body *)
  ctx : context.Context                 (* req.Context() *)
}.

Definition Context (req : Request) : context.Context := ctx req.

(** [req.PostFormValue(key)]: the first value of the field, the empty
    string when the body has no such field. *)
Definition PostFormValue (req : Request) (key : string) : string :=
  match PostForm req !! key with
  | Some (v :: _) => v
  | _ => EmptyString
  end.

(** The server's [http.ResponseWriter]: what has been sent to the client
    so far, and whether the connection still takes writes. *)
Record response := {
  wroteHeader : bool;
  status : Z;
  body : string;
  broken : option error
}.

Definition newResponse (broken : option error) : response :=
  {| wroteHeader := false; status := 0; body := EmptyString; broken := broken |}.

(** [w.WriteHeader(code)]: only the first call counts, net/http ignores
    (and reports as superfluous) any later one. *)
Definition WriteHeader (code : Z) (w : response) : response :=
  if wroteHeader w then w
  else {| wroteHeader := true; status := code; body := body w; broken := broken w |}.

(** [w.Write(data)]: sends the header with status 200 first when none was
    written, then the data; reports the connection's error when it is
    broken. *)
Definition Write (data : string) (w : response) : (Z * option error) * response :=
  let w := WriteHeader StatusOK w in
  match broken w with
  | Some e => ((0, Some e), w)
  | None =>
      ((Z.of_nat (String.length data), None),
       {| wroteHeader := wroteHeader w; status := status w;
          body := body w +:+ data; broken := broken w |})
  end.

(** What the server does when the handler has returned: a handler that
    wrote nothing has answered 200 with an empty body. *)
Definition finishRequest (w : response) : response := WriteHeader StatusOK w.

(** [http.Server], with the fields the program sets; [H] is the type of
    its handler. *)
Record Server {H : Type} := {
  Addr : string;
  Handler : H
}.
Arguments Server H : clear implicits.

End http.

(** ** The state the handlers run in, and its monad *)

(** The database, the response writer [w] of the request being served, and
    the process's log. *)
Record World := {
  db : sql.Backend;
  w : http.response;
  logs : list logrus.Entry
}.

Definition M (A : Type) : Type := World -> A * World.

#[export] Instance M_ret : MRet M := fun A a s => (a, s).
#[export] Instance M_bind : MBind M := fun A B f m s => let (a, s) := m s in f a s.

(** A step of the database as a step of the world. *)
Definition on_db {A} (f : sql.Backend -> A * sql.Backend) : M A :=
  fun s => let (a, b) := f (db s) in (a, {| db := b; w := w s; logs := logs s |}).

(** A method of the response writer [w]. *)
Definition on_w {A} (f : http.response -> A * http.response) : M A :=
  fun s => let (a, r) := f (w s) in (a, {| db := db s; w := r; logs := logs s |}).

Definition log (e : logrus.Entry) : M unit :=
  fun s => (tt, {| db := db s; w := w s; logs := logs s ++ [e] |}).


(** ** Goroutines *)

Module os.
(** The signals the model knows: the two the program registers for, and
    one it does not. *)
Inductive Signal := SIGHUP | SIGINT | SIGTERM.
Definition Interrupt : Signal := SIGINT.

Definition Signal_eqb (a b : Signal) : bool :=
  match a, b with
  | SIGHUP, SIGHUP | SIGINT, SIGINT | SIGTERM, SIGTERM => true
  | _, _ => false
  end.
End os.

Module syscall.
Definition SIGINT : os.Signal := os.SIGINT.
Definition SIGTERM : os.Signal := os.SIGTERM.
End syscall.

(** A channel is named by its place in the process's table of channels. *)
Definition chan := nat.

Definition HTTPServer := http.Server (http.Request -> M unit).

(** The code of a goroutine: the next operation that involves the
    scheduler, another goroutine or the world outside the process, and what
    the goroutine does with its result. *)
Inductive Go (A : Type) : Type :=
| Ret (a : A)
| Make (cap : nat) (k : chan -> Go A)                       (* make(chan T, cap) *)
| SignalNotify (c : chan) (sigs : list os.Signal) (k : Go A) (* signal.Notify(c, sigs...) *)
| Spawn (f : Go unit) (k : Go A)                            (* go f() *)
| Receive (c : chan) (k : Go A)                             (* <-c *)
| CloseChan (c : chan) (k : Go A)                           (* close(c) *)
| SqlOpen (driverName dataSourceName : string) (k : Result sql.DB -> Go A)
| Listen (srv : HTTPServer) (k : option error -> Go A)      (* srv.ListenAndServe() *)
| Shut (srv : HTTPServer) (ctx : context.Context) (k : option error -> Go A)
                                                            (* srv.Shutdown(ctx) *)
| LogInfo (fields : list (string * logrus.FieldValue)) (msg : string) (k : Go A)
| LogFatal (err : option error) (msg : string).             (* logs, then os.Exit(1) *)
Arguments Ret {A} a.
Arguments Make {A} cap k.
Arguments SignalNotify {A} c sigs k.
Arguments Spawn {A} f k.
Arguments Receive {A} c k.
Arguments CloseChan {A} c k.
Arguments SqlOpen {A} driverName dataSourceName k.
Arguments Listen {A} srv k.
Arguments Shut {A} srv ctx k.
Arguments LogInfo {A} fields msg k.
Arguments LogFatal {A} err msg.

Fixpoint Go_then {A B} (f : A -> Go B) (m : Go A) : Go B :=
  match m with
  | Ret a => f a
  | Make n k => Make n (fun c => Go_then f (k c))
  | SignalNotify c sigs k => SignalNotify c sigs (Go_then f k)
  | Spawn g k => Spawn g (Go_then f k)
  | Receive c k => Receive c (Go_then f k)
  | CloseChan c k => CloseChan c (Go_then f k)
  | SqlOpen d n k => SqlOpen d n (fun r => Go_then f (k r))
  | Listen srv k => Listen srv (fun r => Go_then f (k r))
  | Shut srv ctx k => Shut srv ctx (fun r => Go_then f (k r))
  | LogInfo fs msg k => LogInfo fs msg (Go_then f k)
  | LogFatal err msg => LogFatal err msg
  end.

#[export] Instance Go_ret : MRet Go := fun A a => Ret a.
#[export] Instance Go_bind : MBind Go := fun A B f m => Go_then f m.

(** The operations as the program writes them. *)
Definition make_chan (cap : nat) : Go chan := Make cap Ret.
Definition signal_Notify (c : chan) (sigs : list os.Signal) : Go unit :=
  SignalNotify c sigs (Ret tt).
Definition go (f : Go unit) : Go unit := Spawn f (Ret tt).
Definition recv (c : chan) : Go unit := Receive c (Ret tt).
Definition close (c : chan) : Go unit := CloseChan c (Ret tt).
Definition sql_Open (driverName dataSourceName : string) : Go (Result sql.DB) :=
  SqlOpen driverName dataSourceName Ret.
Definition ListenAndServe (srv : HTTPServer) : Go (option error) := Listen srv Ret.
Definition Shutdown (srv : HTTPServer) (ctx : context.Context) : Go (option error) :=
  Shut srv ctx Ret.
Definition logrus_Info (fields : list (string * logrus.FieldValue)) (msg : string)
  : Go unit := LogInfo fields msg (Ret tt).
Definition logrus_Fatal {A} (err : option error) (msg : string) : Go A :=
  LogFatal err msg.

(** ** Package storage *)

Module storage.

Record Storage := {
  conn : sql.DB
}.

Definition NewStorage (databaseURL : string) : Go (Result Storage) :=
  r ← sql_Open "postgres" databaseURL;
  match r with
  | Err err => mret (Err (fmt.Errorf "could not open sql: " err))
  | Ok conn => mret (Ok {| conn := conn |})
  end.

(** The field is [Name] in Go; Rocq wants the fields of the records of
    one module apart. *)
Record CreateItemRequest := {
  Name_ : string
}.

Record Item := {
  ID : string;
  Name : string
}.

(** [type Scanner interface { Scan(dest ...interface{}) error }], with
    the two destinations [ScanItem] passes; [*sql.Row] and [*sql.Rows]
    implement it. *)
Class Scanner (S : Type) := Scan : S -> M (Result sql.Tuple).

#[global] Instance Row_Scanner : Scanner sql.Row :=
  fun r => on_db (sql.Row_Scan r).
#[global] Instance Rows_Scanner : Scanner sql.Rows :=
  fun rs => mret (sql.Rows_Scan rs).

Definition ScanItem {S} `{Scanner S} (s : S) : M (Result Item) :=
  r ← Scan s;
  match r with
  | Err err => mret (Err err)
  | Ok t => mret (Ok {| ID := sql.id t; Name := sql.name t |})
  end.

Definition CreateItem (s : Storage) (ctx : context.Context) (i : CreateItemRequest)
  : M (Result Item) :=
  row ← on_db (sql.QueryRowContext (conn s) ctx
                 "INSERT INTO items(name) VALUES($1) RETURNING id, name" [Name_ i]);
  ScanItem row.

(** The loop [for rows.Next() { ... }] of ListItems, by recursion on the
    rows still to come: [c] is the row [rows.Next()] moves the cursor to. *)
Fixpoint ListItems_loop (lasterr : option error) (pending : list (Result sql.Tuple))
    (items : list Item) : M (Result (list Item)) :=
  match pending with
  | [] => mret (Ok items)
  | c :: pending =>
      r ← ScanItem {| sql.current := Some c; sql.pending := pending;
                      sql.lasterr := lasterr |};
      match r with
      | Err err => mret (Err (fmt.Errorf "could not scan item: " err))
      | Ok item => ListItems_loop lasterr pending (items ++ [item])
      end
  end.

Definition ListItems (s : Storage) (ctx : context.Context) : M (Result (list Item)) :=
  r ← on_db (sql.QueryContext (conn s) ctx "SELECT id, name FROM items" []);
  match r with
  | Err err => mret (Err (fmt.Errorf "could not retrieve items: " err))
  | Ok rows =>
      res ← ListItems_loop (sql.lasterr rows) (sql.pending rows) [];
      on_db (sql.Rows_Close rows);;      (* defer rows.Close() *)
      mret res
  end.

End storage.

(** ** Package apiserver: the routes *)

Module apiserver.

Record APIServer := {
  addr : string;
  storage : storage.Storage
}.

Definition NewAPIServer (addr : string) (storage : storage.Storage) : Result APIServer :=
  if String.eqb addr "" then Err (errors.New "addr cannot be blank")
  else Ok {| addr := addr; storage := storage |}.

(** [type EndpointFunc func(w http.ResponseWriter, req *http.Request) error];
    the writer [w] is the one of the world. *)
Definition EndpointFunc := http.Request -> M (option error).

Record Endpoint := {
  handler : EndpointFunc
}.

(** [http.Handler], the interface of everything a route can point to.  The
    program registers handlers of two types: plain functions (through
    [http.HandlerFunc]) and [Endpoint] values. *)
Inductive Handler :=
| HandlerFunc (f : http.Request -> M unit)
| EndpointHandler (e : Endpoint).

Definition Endpoint_ServeHTTP (e : Endpoint) (req : http.Request) : M unit :=
  r ← handler e req;
  match r with
  | Some err =>
      log {| logrus.level := logrus.ErrorLevel;
             logrus.message := "could not process request";
             logrus.error_field := Some err; logrus.fields := [] |};;
      on_w (fun w => (tt, http.WriteHeader http.StatusInternalServerError w));;
      on_w (http.Write "internal server error");;
      mret tt
  | None => mret tt
  end.

Definition ServeHTTP (h : Handler) (req : http.Request) : M unit :=
  match h with
  | HandlerFunc f => f req
  | EndpointHandler e => Endpoint_ServeHTTP e req
  end.

(** gorilla/mux, as far as the program uses it: a router is the list of
    its routes, a route matches a path and, when it names methods, one of
    them; the first route that matches serves the request. *)
Record Route := {
  methods : list string;
  path : string;
  route_handler : Handler
}.

Definition Router := list Route.

Definition NewRouter : Router := [].

(** [router.HandleFunc(path, f)] *)
Definition HandleFunc (router : Router) (path : string) (f : http.Request -> M unit)
  : Router :=
  router ++ [{| methods := []; path := path; route_handler := HandlerFunc f |}].

(** [router.Methods(method).Path(path).Handler(h)] *)
Definition Methods_Path_Handler (router : Router) (method path : string) (h : Handler)
  : Router :=
  router ++ [{| methods := [method]; path := path; route_handler := h |}].

Definition path_matches (r : Route) (req : http.Request) : bool :=
  String.eqb (path r) (http.Path req).

Definition method_matches (r : Route) (req : http.Request) : bool :=
  match methods r with
  | [] => true
  | ms => existsb (String.eqb (http.Method req)) ms
  end.

Definition Match (router : Router) (req : http.Request) : option Route :=
  find (fun r => path_matches r req && method_matches r req) router.

Definition text (code : Z) (s : string) : M unit :=
  on_w (fun w => (tt, http.WriteHeader code w));;
  on_w (http.Write s);;
  mret tt.

(** [router.ServeHTTP]: the matching route's handler; 405 when only the
    method of a route failed to match, 404 when no path matched. *)
Definition Router_ServeHTTP (router : Router) (req : http.Request) : M unit :=
  match Match router req with
  | Some r => ServeHTTP (route_handler r) req
  | None =>
      if existsb (fun r => path_matches r req) router
      then text http.StatusMethodNotAllowed ""
      else text http.StatusNotFound
             ("404 page not found" +:+ String "010"%char EmptyString)
  end.

Definition defaultRoute (s : APIServer) (r : http.Request) : M unit :=
  on_w (fun w => (tt, http.WriteHeader http.StatusOK w));;
  on_w (http.Write "Hello World");;
  mret tt.

Definition createItem (s : APIServer) (req : http.Request) : M (option error) :=
  r ← storage.CreateItem (storage s) (http.Context req)
        {| storage.Name_ := http.PostFormValue req "name" |};
  match r with
  | Err err => mret (Some err)
  | Ok item =>
      on_w (fun w => (tt, http.WriteHeader http.StatusCreated w));;
      '(_, err) ← on_w (http.Write ("New Item ID: " +:+ storage.ID item));
      mret err
  end.

(** [fmt.Sprintf("%s - %s\n", item.ID, item.Name)] *)
Definition item_line (item : storage.Item) : string :=
  storage.ID item +:+ " - " +:+ storage.Name item +:+ String "010"%char EmptyString.

(** The loop [for _, item := range items { w.Write(...) }] of listItems. *)
Fixpoint listItems_range (items : list storage.Item) : M unit :=
  match items with
  | [] => mret tt
  | item :: items =>
      on_w (http.Write (item_line item));;
      listItems_range items
  end.

Definition listItems (s : APIServer) (req : http.Request) : M (option error) :=
  r ← storage.ListItems (storage s) (http.Context req);
  match r with
  | Err err => mret (Some err)
  | Ok items =>
      listItems_range items;;
      mret None
  end.

Definition router (s : APIServer) : Router :=
  let router := NewRouter in
  let router := HandleFunc router "/" (defaultRoute s) in
  let router := Methods_Path_Handler router "POST" "/items"
                  (EndpointHandler {| handler := createItem s |}) in
  let router := Methods_Path_Handler router "GET" "/items"
                  (EndpointHandler {| handler := listItems s |}) in
  router.

(** The server serving one request with handler [h] on a connection that
    is sound ([broken = None]) or not: a new response writer, the handler,
    and the response as the server completes it. *)
Definition serve (h : http.Request -> M unit) (broken : option error)
    (req : http.Request) : M http.response :=
  fun s =>
    let s := {| db := db s; w := http.newResponse broken; logs := logs s |} in
    let (_, s) := h req s in
    let r := http.finishRequest (w s) in
    (r, {| db := db s; w := r; logs := logs s |}).

Definition defaultStopTimeout : time.Duration := time.Second * 30.

(** Start starts a server with a stop channel. *)
Definition Start (s : APIServer) (stop : chan) : Go (option error) :=
  let srv : HTTPServer :=
    {| http.Addr := addr s; http.Handler := Router_ServeHTTP (router s) |} in
  go (logrus_Info [("addr", logrus.StringValue (http.Addr srv))] "starting server";;
      err ← ListenAndServe srv;
      match err with
      | Some err =>
          if negb (errors.error_eqb err ErrServerClosed)
          then logrus_Fatal None ("listen: " +:+ errors.Error err
                                  +:+ String "010"%char EmptyString)
          else mret tt
      | None => mret tt
      end);;
  recv stop;;
  let ctx := context.WithTimeout context.Background defaultStopTimeout in
  logrus_Info [("timeout", logrus.DurationValue defaultStopTimeout)] "stopping server";;
  Shutdown srv ctx.

End apiserver.

(** ** The entry point *)

Module cli.
(** [*cli.Context]: the values urfave/cli has found for the flags, on the
    command line or in the environment variables they name. *)
Record Context := {
  flags : gmap string string
}.

(** [c.String(name)]: the flag's value, empty when it was not given. *)
Definition String (c : Context) (name : string) : string :=
  default EmptyString (flags c !! name).

Record StringFlag := {
  flag_Name : string;
  EnvVars : list string
}.

Record Command := {
  cmd_Name : string;
  cmd_Usage : string;
  Flags : list StringFlag;
  Action : Context -> Go (option error)
}.

Record App := {
  Name : string;
  Usage : string;
  Commands : list Command
}.

(** [app.Run(os.Args)]: the action of the command the first argument
    names; with no such command the library prints its help and reports
    no error.  [c] holds the flag values it found. *)
Definition Run (a : App) (arguments : list string) (c : Context) : Go (option error) :=
  match arguments with
  | _ :: name :: _ =>
      match find (fun cmd => String.eqb (cmd_Name cmd) name) (Commands a) with
      | Some cmd => Action cmd c
      | None => mret None
      end
  | _ => mret None
  end.
End cli.

Module main.

Definition apiServerAddrFlagName : string := "addr".
Definition apiServerStorageDatabaseURL : string := "database-url".

Definition apiServerCmd : cli.Command :=
  {| cli.cmd_Name := "start";
     cli.cmd_Usage := "starts the API server";
     cli.Flags :=
       [ {| cli.flag_Name := apiServerAddrFlagName; cli.EnvVars := ["API_SERVER_ADDR"] |};
         {| cli.flag_Name := apiServerStorageDatabaseURL; cli.EnvVars := ["DATABASE_URL"] |} ];
     cli.Action := fun c =>
       done ← make_chan 1;
       signal_Notify done [os.Interrupt; syscall.SIGINT; syscall.SIGTERM];;

       stopper ← make_chan 0;
       go (recv done;;
           close stopper);;

       let addr := cli.String c apiServerAddrFlagName in
       let databaserURL := cli.String c apiServerStorageDatabaseURL in
       r ← storage.NewStorage databaserURL;
       match r with
       | Err err => mret (Some (fmt.Errorf "could not initialize storage: " err))
       | Ok s =>
           match apiserver.NewAPIServer addr s with
           | Err err => mret (Some err)
           | Ok server => apiserver.Start server stopper
           end
       end |}.

Definition app : cli.App :=
  {| cli.Name := "api-server";
     cli.Usage := "The API";
     cli.Commands := [apiServerCmd] |}.

(** [main], given [os.Args] and the flag values. *)
Definition main (Args : list string) (c : cli.Context) : Go unit :=
  err ← cli.Run app Args c;
  match err with
  | Some err => logrus_Fatal (Some err) "could not run application"
  | None => mret tt
  end.

End main.

(** ** The process at run time

    The Go scheduler and the operating system, as a labelled transition
    function: a label either lets one goroutine take its next step, with
    the outside world's answer where the step asks for one, or delivers a
    signal to the process. *)

Module runtime.

Record Chan := {
  cap : nat;
  buf : list os.Signal;     (* values sent and not yet received *)
  closed : bool
}.

(** The one [http.Server] of the process. *)
Inductive ServerState :=
| Idle            (* not listening *)
| Listening       (* bound to its address and accepting connections *)
| ShutDown.       (* Shutdown has been called *)

Inductive Status :=
| Running
| Exited (code : Z)
| Killed (s : os.Signal)          (* by a signal nothing was registered for *)
| Panicked (msg : string).

(** What an observer of the process can see happen. *)
Inductive Event :=
| EvSignal (s : os.Signal)
| EvClose (c : chan)
| EvOpen (dataSourceName : string) (r : option error)
| EvListen (addr : string) (r : option error)
| EvAccept (e : error)
| EvShutdown (timeout : option time.Duration) (drain : time.Duration) (r : option error).

Record Config := {
  threads : list (Go unit);                 (* goroutine 0 runs main *)
  chans : list Chan;
  notify : list (chan * list os.Signal);    (* the registrations of signal.Notify *)
  server : ServerState;
  log : list logrus.Entry;
  trace : list Event;                       (* latest event first *)
  status : Status
}.

Inductive Answer :=
| Silent
| Opened (r : option error)       (* sql.Open: the driver's verdict on the data source name *)
| Bound (r : option error)        (* net.Listen: the address was bound, or why not *)
| AcceptFailed (e : error)        (* the listener fails while it serves *)
| Drained (d : time.Duration).    (* how long the requests in flight take to complete *)

Inductive Label :=
| Sched (t : nat) (a : Answer)
| Deliver (s : os.Signal).

Definition set_thread (t : nat) (p : Go unit) (c : Config) : Config :=
  {| threads := <[t := p]> (threads c); chans := chans c; notify := notify c;
     server := server c; log := log c; trace := trace c; status := status c |}.

Definition set_chans (cs : list Chan) (c : Config) : Config :=
  {| threads := threads c; chans := cs; notify := notify c;
     server := server c; log := log c; trace := trace c; status := status c |}.

Definition set_server (s : ServerState) (c : Config) : Config :=
  {| threads := threads c; chans := chans c; notify := notify c;
     server := s; log := log c; trace := trace c; status := status c |}.

Definition set_status (s : Status) (c : Config) : Config :=
  {| threads := threads c; chans := chans c; notify := notify c;
     server := server c; log := log c; trace := trace c; status := s |}.

Definition emit (e : Event) (c : Config) : Config :=
  {| threads := threads c; chans := chans c; notify := notify c;
     server := server c; log := log c; trace := e :: trace c; status := status c |}.

Definition write_log (e : logrus.Entry) (c : Config) : Config :=
  {| threads := threads c; chans := chans c; notify := notify c;
     server := server c; log := log c ++ [e]; trace := trace c; status := status c |}.

(** What [srv.Shutdown(ctx)] reports when the requests in flight need
    [drain] to complete. *)
Definition shutdown_result (ctx : context.Context) (drain : time.Duration) : option error :=
  match context.timeout ctx with
  | Some t => if drain <=? t then None else Some DeadlineExceeded
  | None => None
  end.

(** One step of goroutine [t], whose code is [p]. *)
Definition step_thread (t : nat) (a : Answer) (p : Go unit) (c : Config) : option Config :=
  match p with
  | Ret _ =>
      (* main returns: the process exits with code 0 *)
      match t with
      | O => Some (set_status (Exited 0) c)
      | _ => None
      end
  | Make n k =>
      Some (set_thread t (k (length (chans c)))
              (set_chans (chans c ++ [{| cap := n; buf := []; closed := false |}]) c))
  | SignalNotify ch sigs k =>
      Some (set_thread t k
              {| threads := threads c; chans := chans c;
                 notify := notify c ++ [(ch, sigs)];
                 server := server c; log := log c; trace := trace c;
                 status := status c |})
  | Spawn f k =>
      Some {| threads := <[t := k]> (threads c) ++ [f]; chans := chans c;
              notify := notify c; server := server c; log := log c;
              trace := trace c; status := status c |}
  | Receive ch k =>
      (* blocks until a value is there or the channel is closed *)
      match chans c !! ch with
      | Some q =>
          match buf q with
          | _ :: rest =>
              Some (set_thread t k
                      (set_chans (<[ch := {| cap := cap q; buf := rest;
                                             closed := closed q |}]> (chans c)) c))
          | [] => if closed q then Some (set_thread t k c) else None
          end
      | None => None
      end
  | CloseChan ch k =>
      match chans c !! ch with
      | Some q =>
          if closed q then Some (set_status (Panicked "close of closed channel") c)
          else Some (set_thread t k
                       (emit (EvClose ch)
                          (set_chans (<[ch := {| cap := cap q; buf := buf q;
                                                 closed := true |}]> (chans c)) c)))
      | None => Some (set_status (Panicked "close of nil channel") c)
      end
  | SqlOpen d n k =>
      match a with
      | Opened r =>
          Some (set_thread t
                  (k match r with
                     | Some e => Err e
                     | None => Ok {| sql.driverName := d; sql.dataSourceName := n |}
                     end)
                  (emit (EvOpen n r) c))
      | _ => None
      end
  | Listen srv k =>
      match server c with
      | ShutDown => Some (set_thread t (k (Some ErrServerClosed)) c)
      | Idle =>
          match a with
          | Bound None => Some (set_server Listening (emit (EvListen (http.Addr srv) None) c))
          | Bound (Some e) =>
              (* net.Listen never reports the server's own sentinel *)
              if errors.error_eqb e ErrServerClosed then None
              else Some (set_thread t (k (Some e))
                           (emit (EvListen (http.Addr srv) (Some e)) c))
          | _ => None
          end
      | Listening =>
          (* blocked in Serve until the listener fails or Shutdown is called *)
          match a with
          | AcceptFailed e =>
              if errors.error_eqb e ErrServerClosed then None
              else Some (set_thread t (k (Some e)) (set_server Idle (emit (EvAccept e) c)))
          | _ => None
          end
      end
  | Shut srv ctx k =>
      match a with
      | Drained d =>
          if d <? 0 then None
          else
            let r := shutdown_result ctx d in
            Some (set_thread t (k r)
                    (set_server ShutDown (emit (EvShutdown (context.timeout ctx) d r) c)))
      | _ => None
      end
  | LogInfo fs msg k =>
      Some (set_thread t k
              (write_log {| logrus.level := logrus.InfoLevel; logrus.message := msg;
                            logrus.error_field := None; logrus.fields := fs |} c))
  | LogFatal err msg =>
      Some (set_status (Exited 1)
              (write_log {| logrus.level := logrus.FatalLevel; logrus.message := msg;
                            logrus.error_field := err; logrus.fields := [] |} c))
  end.

Definition registered (s : os.Signal) (reg : chan * list os.Signal) : bool :=
  existsb (os.Signal_eqb s) (snd reg).

(** The signal package passing [s] on to one registered channel: a send
    that does not block, so the value is dropped when the buffer is full. *)
Definition relay (s : os.Signal) (cs : list Chan) (reg : chan * list os.Signal)
  : list Chan :=
  if registered s reg then
    match cs !! fst reg with
    | Some q =>
        if (length (buf q) <? cap q)%nat
        then <[fst reg := {| cap := cap q; buf := buf q ++ [s]; closed := closed q |}]> cs
        else cs
    | None => cs
    end
  else cs.

Definition is_closed (cs : list Chan) (ch : chan) : bool :=
  match cs !! ch with
  | Some q => closed q
  | None => false
  end.

(** The operating system delivering [s]: to the channels registered for
    it, and with none the process is killed.  A send on a closed channel
    panics. *)
Definition deliver (s : os.Signal) (c : Config) : option Config :=
  if existsb (registered s) (notify c) then
    if existsb (fun reg => registered s reg && is_closed (chans c) (fst reg)) (notify c)
    then Some (set_status (Panicked "send on closed channel") (emit (EvSignal s) c))
    else Some (emit (EvSignal s)
                 (set_chans (fold_left (relay s) (notify c) (chans c)) c))
  else Some (set_status (Killed s) (emit (EvSignal s) c)).

Definition step (l : Label) (c : Config) : option Config :=
  match status c with
  | Running =>
      match l with
      | Sched t a =>
          match threads c !! t with
          | Some p => step_thread t a p c
          | None => None
          end
      | Deliver s => deliver s c
      end
  | _ => None
  end.

(** A run: the labels one after the other; [None] when one of them is not
    possible where it comes. *)
Fixpoint run (ls : list Label) (c : Config) : option Config :=
  match ls with
  | [] => Some c
  | l :: ls =>
      match step l c with
      | Some c => run ls c
      | None => None
      end
  end.

(** The process when it starts. *)
Definition init (p : Go unit) : Config :=
  {| threads := [p]; chans := []; notify := []; server := Idle;
     log := []; trace := []; status := Running |}.

Definition reachable (p : Go unit) (c : Config) : Prop :=
  exists ls, run ls (init p) = Some c.

End runtime.

(** ** The process of the command [start], point by point

    Where each of its three goroutines can stand, and the process state
    that goes with it.  The theorems on the process relate every state
    the transition function can reach to one of these. *)

Module process.
Import runtime.

Definition Args : list string := ["api-server"; "start"].

(** The two channels [apiServerCmd] makes, in the order it makes them. *)
Definition done : chan := 0%nat.
Definition stopper : chan := 1%nat.

Definition signals : list os.Signal := [os.Interrupt; syscall.SIGINT; syscall.SIGTERM].

(** The context [Start] gives to [srv.Shutdown]. *)
Definition stop_ctx : context.Context :=
  context.WithTimeout context.Background apiserver.defaultStopTimeout.

(** What observers read off a trace. *)
Definition closes (tr : list Event) : list chan :=
  omap (fun e => match e with EvClose c => Some c | _ => None end) tr.

Definition shutdowns (tr : list Event)
  : list (option time.Duration * time.Duration * option error) :=
  omap (fun e => match e with EvShutdown t d r => Some (t, d, r) | _ => None end) tr.

Definition opens (tr : list Event) : list (string * option error) :=
  omap (fun e => match e with EvOpen n r => Some (n, r) | _ => None end) tr.

Definition binds (tr : list Event) : list (string * option error) :=
  omap (fun e => match e with EvListen a r => Some (a, r) | _ => None end) tr.

(** The errors [ListenAndServe] has failed with. *)
Definition listen_errors (tr : list Event) : list error :=
  omap (fun e => match e with
                 | EvListen _ (Some e) => Some e
                 | EvAccept e => Some e
                 | _ => None
                 end) tr.

(** The signals delivered that the program registers for. *)
Definition stop_signals (tr : list Event) : list os.Signal :=
  omap (fun e => match e with
                 | EvSignal s => if existsb (os.Signal_eqb s) signals then Some s else None
                 | _ => None
                 end) tr.

(** Every close in the trace came after a signal the program registers
    for (the trace has the latest event first). *)
Fixpoint close_after_signal (tr : list Event) : Prop :=
  match tr with
  | [] => True
  | EvClose _ :: tr => stop_signals tr <> [] /\ close_after_signal tr
  | _ :: tr => close_after_signal tr
  end.

(** Every shutdown in the trace came after a close. *)
Fixpoint shutdown_after_close (tr : list Event) : Prop :=
  match tr with
  | [] => True
  | EvShutdown _ _ _ :: tr => closes tr <> [] /\ shutdown_after_close tr
  | _ :: tr => shutdown_after_close tr
  end.

(** The entry [main] logs before it exits with an error. *)
Definition main_fatal (err : error) : logrus.Entry :=
  {| logrus.level := logrus.FatalLevel; logrus.message := "could not run application";
     logrus.error_field := Some err; logrus.fields := [] |}.

(** The entry the listening goroutine logs before it exits. *)
Definition listen_fatal (err : error) : logrus.Entry :=
  {| logrus.level := logrus.FatalLevel;
     logrus.message := "listen: " +:+ errors.Error err +:+ String "010"%char EmptyString;
     logrus.error_field := None; logrus.fields := [] |}.

(** What [main] does with the result of [app().Run]. *)
Definition main_tail (err : option error) : Go unit :=
  match err with
  | Some err => logrus_Fatal (Some err) "could not run application"
  | None => mret tt
  end.

(** Where goroutine 0 stands. *)
Inductive MainPoint :=
| M_make_done             (* done := make(chan os.Signal, 1) *)
| M_notify                (* signal.Notify(done, ...) *)
| M_make_stopper          (* stopper := make(chan struct{}) *)
| M_go                    (* go func() { <-done; close(stopper) }() *)
| M_open                  (* storage.NewStorage: sql.Open *)
| M_open_failed (e : error)   (* back in main with the error of NewStorage *)
| M_addr_blank            (* back in main with the error of NewAPIServer *)
| M_start                 (* server.Start: go func() { ... ListenAndServe ... }() *)
| M_wait                  (* <-stop *)
| M_stopping              (* logrus ... Info("stopping server") *)
| M_shutdown              (* srv.Shutdown(ctx) *)
| M_returned (d : time.Duration).  (* back in main with the result of Shutdown *)

(** Where the goroutine of [apiServerCmd] stands. *)
Inductive SignalPoint :=
| S_wait                  (* <-done *)
| S_close                 (* close(stopper) *)
| S_end.

(** Where the goroutine of [Start] stands. *)
Inductive ListenPoint :=
| L_starting              (* logrus ... Info("starting server") *)
| L_serve                 (* srv.ListenAndServe() *)
| L_fatal (e : error)     (* logrus.Fatalf("listen: %s\n", err) *)
| L_end.

Section Flags.

Variable c : cli.Context.

Definition addr : string := cli.String c main.apiServerAddrFlagName.
Definition databaseURL : string := cli.String c main.apiServerStorageDatabaseURL.

Definition the_storage : storage.Storage :=
  {| storage.conn := {| sql.driverName := "postgres";
                        sql.dataSourceName := databaseURL |} |}.

Definition the_server : apiserver.APIServer :=
  {| apiserver.addr := addr; apiserver.storage := the_storage |}.

Definition srv : HTTPServer :=
  {| http.Addr := addr;
     http.Handler := apiserver.Router_ServeHTTP (apiserver.router the_server) |}.

(** The rest of the action of [start], from each of its points on. *)
Definition from_open (stopper : chan) : Go (option error) :=
  r ← storage.NewStorage databaseURL;
  match r with
  | Err err => mret (Some (fmt.Errorf "could not initialize storage: " err))
  | Ok s =>
      match apiserver.NewAPIServer addr s with
      | Err err => mret (Some err)
      | Ok server => apiserver.Start server stopper
      end
  end.

Definition from_go (done stopper : chan) : Go (option error) :=
  go (recv done;; close stopper);;
  from_open stopper.

Definition from_make_stopper (done : chan) : Go (option error) :=
  stopper ← make_chan 0;
  from_go done stopper.

Definition from_notify (done : chan) : Go (option error) :=
  signal_Notify done signals;;
  from_make_stopper done.

(** The rest of [Start], from each of its points on. *)
Definition Start_shutdown : Go (option error) := Shutdown srv stop_ctx.

Definition Start_stopping : Go (option error) :=
  logrus_Info [("timeout", logrus.DurationValue apiserver.defaultStopTimeout)]
    "stopping server";;
  Start_shutdown.

Definition Start_wait : Go (option error) :=
  recv stopper;;
  Start_stopping.

Definition main_code (pm : MainPoint) : Go unit :=
  match pm with
  | M_make_done => main.main Args c
  | M_notify => from_notify done ≫= main_tail
  | M_make_stopper => from_make_stopper done ≫= main_tail
  | M_go => from_go done stopper ≫= main_tail
  | M_open => from_open stopper ≫= main_tail
  | M_open_failed e =>
      main_tail (Some (fmt.Errorf "could not initialize storage: "
                         (fmt.Errorf "could not open sql: " e)))
  | M_addr_blank => main_tail (Some (errors.New "addr cannot be blank"))
  | M_start => apiserver.Start the_server stopper ≫= main_tail
  | M_wait => Start_wait ≫= main_tail
  | M_stopping => Start_stopping ≫= main_tail
  | M_shutdown => Start_shutdown ≫= main_tail
  | M_returned d => main_tail (shutdown_result stop_ctx d)
  end.

Definition signal_code (ps : SignalPoint) : Go unit :=
  match ps with
  | S_wait => recv done;; close stopper
  | S_close => close stopper
  | S_end => mret tt
  end.

Definition listen_result (err : option error) : Go unit :=
  match err with
  | Some err =>
      if negb (errors.error_eqb err ErrServerClosed)
      then logrus_Fatal None ("listen: " +:+ errors.Error err
                              +:+ String "010"%char EmptyString)
      else mret tt
  | None => mret tt
  end.

Definition listen_code (pl : ListenPoint) : Go unit :=
  match pl with
  | L_starting =>
      logrus_Info [("addr", logrus.StringValue (http.Addr srv))] "starting server";;
      err ← ListenAndServe srv;
      listen_result err
  | L_serve => err ← ListenAndServe srv; listen_result err
  | L_fatal e =>
      logrus_Fatal None ("listen: " +:+ errors.Error e +:+ String "010"%char EmptyString)
  | L_end => mret tt
  end.

(** The process state at given points. *)
Record Points := {
  pm : MainPoint;
  ps : SignalPoint;
  pl : ListenPoint;
  pending : list os.Signal;       (* what waits in the buffer of done *)
  p_server : ServerState;
  p_log : list logrus.Entry;
  p_trace : list Event;
  p_status : Status
}.

(** The goroutine of [apiServerCmd] exists. *)
Definition forked (pm : MainPoint) : bool :=
  match pm with
  | M_make_done | M_notify | M_make_stopper | M_go => false
  | _ => true
  end.

(** The goroutine of [Start] exists. *)
Definition started (pm : MainPoint) : bool :=
  match pm with
  | M_wait | M_stopping | M_shutdown | M_returned _ => true
  | _ => false
  end.

(** [signal.Notify] has been called. *)
Definition notified (pm : MainPoint) : bool :=
  match pm with
  | M_make_done | M_notify => false
  | _ => true
  end.

(** [stopper] has been made. *)
Definition has_stopper (pm : MainPoint) : bool :=
  match pm with
  | M_make_done | M_notify | M_make_stopper => false
  | _ => true
  end.

Definition is_end (ps : SignalPoint) : bool :=
  match ps with
  | S_end => true
  | _ => false
  end.

Definition state (a : Points) : Config :=
  {| threads :=
       main_code (pm a)
       :: (if forked (pm a)
           then signal_code (ps a)
                :: (if started (pm a) then [listen_code (pl a)] else [])
           else []);
     chans :=
       match pm a with
       | M_make_done => []
       | _ =>
           {| cap := 1; buf := pending a; closed := false |}
           :: (if has_stopper (pm a)
               then [{| cap := 0; buf := []; closed := is_end (ps a) |}]
               else [])
       end;
     notify := if notified (pm a) then [(done, signals)] else [];
     server := p_server a;
     log := p_log a;
     trace := p_trace a;
     status := p_status a |}.

(** *** The moves from point to point *)

Definition at_main (p : MainPoint) (a : Points) : Points :=
  {| pm := p; ps := ps a; pl := pl a; pending := pending a; p_server := p_server a;
     p_log := p_log a; p_trace := p_trace a; p_status := p_status a |}.

Definition at_signal (p : SignalPoint) (a : Points) : Points :=
  {| pm := pm a; ps := p; pl := pl a; pending := pending a; p_server := p_server a;
     p_log := p_log a; p_trace := p_trace a; p_status := p_status a |}.

Definition at_listen (p : ListenPoint) (a : Points) : Points :=
  {| pm := pm a; ps := ps a; pl := p; pending := pending a; p_server := p_server a;
     p_log := p_log a; p_trace := p_trace a; p_status := p_status a |}.

Definition with_pending (q : list os.Signal) (a : Points) : Points :=
  {| pm := pm a; ps := ps a; pl := pl a; pending := q; p_server := p_server a;
     p_log := p_log a; p_trace := p_trace a; p_status := p_status a |}.

Definition with_server (s : ServerState) (a : Points) : Points :=
  {| pm := pm a; ps := ps a; pl := pl a; pending := pending a; p_server := s;
     p_log := p_log a; p_trace := p_trace a; p_status := p_status a |}.

Definition logging (e : logrus.Entry) (a : Points) : Points :=
  {| pm := pm a; ps := ps a; pl := pl a; pending := pending a; p_server := p_server a;
     p_log := p_log a ++ [e]; p_trace := p_trace a; p_status := p_status a |}.

Definition seeing (e : Event) (a : Points) : Points :=
  {| pm := pm a; ps := ps a; pl := pl a; pending := pending a; p_server := p_server a;
     p_log := p_log a; p_trace := e :: p_trace a; p_status := p_status a |}.

Definition ending (s : Status) (a : Points) : Points :=
  {| pm := pm a; ps := ps a; pl := pl a; pending := pending a; p_server := p_server a;
     p_log := p_log a; p_trace := p_trace a; p_status := s |}.

Definition info (fs : list (string * logrus.FieldValue)) (msg : string) : logrus.Entry :=
  {| logrus.level := logrus.InfoLevel; logrus.message := msg;
     logrus.error_field := None; logrus.fields := fs |}.

Definition move_main (ans : Answer) (a : Points) : option Points :=
  match pm a with
  | M_make_done => Some (at_main M_notify a)
  | M_notify => Some (at_main M_make_stopper a)
  | M_make_stopper => Some (at_main M_go a)
  | M_go => Some (at_main M_open a)
  | M_open =>
      match ans with
      | Opened (Some e) =>
          Some (at_main (M_open_failed e) (seeing (EvOpen databaseURL (Some e)) a))
      | Opened None =>
          Some (at_main (if String.eqb addr "" then M_addr_blank else M_start)
                  (seeing (EvOpen databaseURL None) a))
      | _ => None
      end
  | M_open_failed e =>
      Some (ending (Exited 1)
              (logging (main_fatal (fmt.Errorf "could not initialize storage: "
                                      (fmt.Errorf "could not open sql: " e))) a))
  | M_addr_blank =>
      Some (ending (Exited 1) (logging (main_fatal (errors.New "addr cannot be blank")) a))
  | M_start => Some (at_main M_wait a)
  | M_wait => if is_end (ps a) then Some (at_main M_stopping a) else None
  | M_stopping =>
      Some (at_main M_shutdown
              (logging (info [("timeout",
                               logrus.DurationValue apiserver.defaultStopTimeout)]
                          "stopping server") a))
  | M_shutdown =>
      match ans with
      | Drained d =>
          if d <? 0 then None
          else Some (at_main (M_returned d)
                       (with_server ShutDown
                          (seeing (EvShutdown (Some apiserver.defaultStopTimeout) d
                                     (shutdown_result stop_ctx d)) a)))
      | _ => None
      end
  | M_returned d =>
      match shutdown_result stop_ctx d with
      | Some e => Some (ending (Exited 1) (logging (main_fatal e) a))
      | None => Some (ending (Exited 0) a)
      end
  end.

Definition move_signal (a : Points) : option Points :=
  match ps a with
  | S_wait =>
      match pending a with
      | _ :: rest => Some (at_signal S_close (with_pending rest a))
      | [] => None
      end
  | S_close => Some (at_signal S_end (seeing (EvClose stopper) a))
  | S_end => None
  end.

Definition move_listen (ans : Answer) (a : Points) : option Points :=
  match pl a with
  | L_starting =>
      Some (at_listen L_serve
              (logging (info [("addr", logrus.StringValue addr)] "starting server") a))
  | L_serve =>
      match p_server a with
      | ShutDown => Some (at_listen L_end a)
      | Idle =>
          match ans with
          | Bound None => Some (with_server Listening (seeing (EvListen addr None) a))
          | Bound (Some e) =>
              if errors.error_eqb e ErrServerClosed then None
              else Some (at_listen (L_fatal e) (seeing (EvListen addr (Some e)) a))
          | _ => None
          end
      | Listening =>
          match ans with
          | AcceptFailed e =>
              if errors.error_eqb e ErrServerClosed then None
              else Some (at_listen (L_fatal e) (with_server Idle (seeing (EvAccept e) a)))
          | _ => None
          end
      end
  | L_fatal e => Some (ending (Exited 1) (logging (listen_fatal e) a))
  | L_end => None
  end.

Definition move_deliver (s : os.Signal) (a : Points) : Points :=
  if notified (pm a) && existsb (os.Signal_eqb s) signals then
    seeing (EvSignal s)
      (with_pending (if (length (pending a) <? 1)%nat then pending a ++ [s]
                     else pending a) a)
  else ending (Killed s) (seeing (EvSignal s) a).

Definition move (l : Label) (a : Points) : option Points :=
  match p_status a with
  | Running =>
      match l with
      | Deliver s => Some (move_deliver s a)
      | Sched 0 ans => move_main ans a
      | Sched 1 _ => if forked (pm a) then move_signal a else None
      | Sched 2 ans => if started (pm a) then move_listen ans a else None
      | Sched _ _ => None
      end
  | _ => None
  end.

Fixpoint moves (ls : list Label) (a : Points) : option Points :=
  match ls with
  | [] => Some a
  | l :: ls =>
      match move l a with
      | Some a => moves ls a
      | None => None
      end
  end.

(** *** What holds at every point the process reaches *)

(** The error [main] is about to log, where it is back from [app().Run]. *)
Definition returned_error (p : MainPoint) : option error :=
  match p with
  | M_open_failed e =>
      Some (fmt.Errorf "could not initialize storage: "
              (fmt.Errorf "could not open sql: " e))
  | M_addr_blank => Some (errors.New "addr cannot be blank")
  | M_returned d => shutdown_result stop_ctx d
  | _ => None
  end.

Definition past_wait (p : MainPoint) : bool :=
  match p with
  | M_stopping | M_shutdown | M_returned _ => true
  | _ => false
  end.

Definition exit_ok (a : Points) : Prop :=
  match p_status a with
  | Running | Killed _ => True
  | Panicked _ => False
  | Exited code =>
      (code = 0 /\ exists d, pm a = M_returned d /\ shutdown_result stop_ctx d = None) \/
      (code = 1 /\
       ((exists e, returned_error (pm a) = Some e /\ last (p_log a) = Some (main_fatal e)) \/
        (exists e, started (pm a) = true /\ pl a = L_fatal e /\
                   last (p_log a) = Some (listen_fatal e))))
  end.

Record sound (a : Points) : Prop := {
  signal_waits : forked (pm a) = false -> ps a = S_wait;
  listen_waits : started (pm a) = false -> pl a = L_starting;
  nothing_pending : notified (pm a) = false -> pending a = [];
  one_pending : (length (pending a) <= 1)%nat;
  stopped_first : past_wait (pm a) = true -> ps a = S_end;
  closed_once : closes (p_trace a) = if is_end (ps a) then [stopper] else [];
  signal_first :
    match pending a, ps a with
    | [], S_wait => p_status a = Running -> stop_signals (p_trace a) = []
    | _, _ => stop_signals (p_trace a) <> []
    end;
  signal_then_close : close_after_signal (p_trace a);
  close_then_shutdown : shutdown_after_close (p_trace a);
  one_shutdown :
    shutdowns (p_trace a) =
    match pm a with
    | M_returned d =>
        [(Some apiserver.defaultStopTimeout, d, shutdown_result stop_ctx d)]
    | _ => []
    end;
  one_open :
    opens (p_trace a) =
    match pm a with
    | M_make_done | M_notify | M_make_stopper | M_go | M_open => []
    | M_open_failed e => [(databaseURL, Some e)]
    | _ => [(databaseURL, None)]
    end;
  bind_started : started (pm a) = false -> binds (p_trace a) = [];
  serve_started : started (pm a) = false -> p_server a = Idle;
  listen_failed :
    listen_errors (p_trace a) = match pl a with L_fatal e => [e] | _ => [] end;
  fatal_error : forall e, pl a = L_fatal e -> errors.error_eqb e ErrServerClosed = false;
  addr_given :
    match pm a with
    | M_start | M_wait | M_stopping | M_shutdown | M_returned _ =>
        String.eqb addr "" = false
    | M_addr_blank => String.eqb addr "" = true
    | _ => True
    end;
  exits : exit_ok a
}.

(** The process when it starts. *)
Definition start : Points :=
  {| pm := M_make_done; ps := S_wait; pl := L_starting; pending := [];
     p_server := Idle; p_log := []; p_trace := []; p_status := Running |}.

End Flags.

End process.

(** ** What database/sql answers to [sql.Open]

    The process model leaves the answer to the environment; this is the
    answer of the library itself. *)

Module database_sql.

(** The drivers registered when [main] starts: storage/storage.go imports
    [_ "github.com/lib/pq"], whose [init] registers the one name
    [postgres]. *)
Definition drivers : list string := ["postgres"].

Definition quote : string := String (ascii_of_nat 34) EmptyString.

(** [sql.Open(driverName, dataSourceName)]: an error for a driver name
    that is not registered.  For a registered driver that is no
    [driver.DriverContext], as lib/pq's, the handle is made from the data
    source name as it is: the name is not parsed and no connection is
    made before the first statement. *)
Definition Open (driverName dataSourceName : string) : Result sql.DB :=
  if existsb (String.eqb driverName) drivers
  then Ok {| sql.driverName := driverName; sql.dataSourceName := dataSourceName |}
  else Err (errorString ("sql: unknown driver " +:+ quote +:+ driverName +:+ quote
                         +:+ " (forgotten import?)")).

End database_sql.

(** The call [p] with its [sql.Open] answered by database/sql. *)
Definition with_database_sql {A : Type} (p : Go A) : Go A :=
  match p with
  | SqlOpen d n k => k (database_sql.Open d n)
  | _ => p
  end.

(** ** Vocabulary of the theorems *)

(** The item [ScanItem] makes of a row. *)
Definition to_item (t : sql.Tuple) : storage.Item :=
  {| storage.ID := sql.id t; storage.Name := sql.name t |}.

(** The loop of ListItems as a function of the rows alone. *)
Fixpoint scan_cells (cells : list (Result sql.Tuple)) (acc : list storage.Item)
  : Result (list storage.Item) :=
  match cells with
  | [] => Ok acc
  | Ok t :: cells => scan_cells cells (acc ++ [to_item t])
  | Err e :: _ => Err (fmt.Errorf "could not scan item: " e)
  end.

Definition with_db (b : sql.Backend) (st : World) : World :=
  {| db := b; w := w st; logs := logs st |}.

Definition with_w (r : http.response) (st : World) : World :=
  {| db := db st; w := r; logs := logs st |}.

(** The handler of a route is an [Endpoint]. *)
Definition is_endpoint (h : apiserver.Handler) : bool :=
  match h with
  | apiserver.EndpointHandler _ => true
  | apiserver.HandlerFunc _ => false
  end.

(** The entry [Endpoint.ServeHTTP] logs for the error of a handler. *)
Definition request_error (err : error) : logrus.Entry :=
  {| logrus.level := logrus.ErrorLevel;
     logrus.message := "could not process request";
     logrus.error_field := Some err; logrus.fields := [] |}.

(** The handler [Start] gives to its [http.Server]. *)
Definition the_router (api : apiserver.APIServer) : http.Request -> M unit :=
  apiserver.Router_ServeHTTP (apiserver.router api).

(** ** Sample inputs *)

Definition sample_trips (n : nat) : sql.Trip :=
  {| sql.fault := None; sql.random := 1234567890123456789 * Z.of_nat (S n) |}.

(** An empty table behind a sound connection. *)
Definition sample_backend : sql.Backend :=
  {| sql.items := []; sql.accepts := fun _ => true; sql.trips := sample_trips;
     sql.served := 0; sql.cursors := 0 |}.

(** A database that cannot be reached. *)
Definition failing_backend : sql.Backend :=
  {| sql.items := []; sql.accepts := fun _ => true;
     sql.trips := fun _ =>
       {| sql.fault := Some (sql.StmtFault (errorString "connection refused"));
          sql.random := 0 |};
     sql.served := 0; sql.cursors := 0 |}.

Definition sample_world : World :=
  {| db := sample_backend; w := http.newResponse None; logs := [] |}.

Definition failing_world : World :=
  {| db := failing_backend; w := http.newResponse None; logs := [] |}.

Definition sample_storage : storage.Storage :=
  {| storage.conn :=
       {| sql.driverName := "postgres";
          sql.dataSourceName := "postgres://local-dev@db/api?sslmode=disable" |} |}.

Definition sample_api : apiserver.APIServer :=
  {| apiserver.addr := ":3000"; apiserver.storage := sample_storage |}.

(** [curl -F name=widget http://host/items] *)
Definition sample_POST : http.Request :=
  {| http.Method := "POST"; http.Path := "/items";
     http.PostForm := {[ "name" := ["widget"] ]}; http.ctx := context.Background |}.

(** [curl http://host/items] *)
Definition sample_GET : http.Request :=
  {| http.Method := "GET"; http.Path := "/items";
     http.PostForm := ∅; http.ctx := context.Background |}.

(** The flags of the compose file, and the same without an address. *)
Definition sample_flags : cli.Context :=
  {| cli.flags := {[ "addr" := ":3000";
                     "database-url" := "postgres://local-dev@db/api?sslmode=disable" ]} |}.

Definition blank_flags : cli.Context :=
  {| cli.flags := {[ "database-url" := "postgres://local-dev@db/api?sslmode=disable" ]} |}.

(** Flags whose database URL is none. *)
Definition bad_url_flags : cli.Context :=
  {| cli.flags := {[ "addr" := ":3000"; "database-url" := "not a url" ]} |}.

(** Runs of the process: up to the point where [Start] waits for the stop
    channel (or, without an address, to the exit of [main]); with the
    server listening; with three signals delivered and the stop channel
    closed; through the shutdown, which takes five seconds. *)
Definition run_to_wait : list runtime.Label :=
  [runtime.Sched 0 runtime.Silent; runtime.Sched 0 runtime.Silent;
   runtime.Sched 0 runtime.Silent; runtime.Sched 0 runtime.Silent;
   runtime.Sched 0 (runtime.Opened None); runtime.Sched 0 runtime.Silent].

Definition run_listening : list runtime.Label :=
  run_to_wait ++ [runtime.Sched 2 runtime.Silent; runtime.Sched 2 (runtime.Bound None)].

Definition run_signalled : list runtime.Label :=
  run_listening
  ++ [runtime.Deliver os.SIGINT; runtime.Deliver os.SIGTERM; runtime.Deliver os.SIGINT;
      runtime.Sched 1 runtime.Silent; runtime.Sched 1 runtime.Silent].

Definition run_shutdown : list runtime.Label :=
  run_signalled
  ++ [runtime.Sched 0 runtime.Silent; runtime.Sched 0 runtime.Silent;
      runtime.Sched 0 (runtime.Drained (5 * time.Second))].

(** A run in which the address is already in use. *)
Definition run_addr_in_use : list runtime.Label :=
  run_to_wait
  ++ [runtime.Sched 2 runtime.Silent;
      runtime.Sched 2 (runtime.Bound
                         (Some (errorString "listen tcp :3000: bind: address already in use")))].

(** The run is possible from the start of [start]. *)
Definition possible (c : cli.Context) (ls : list runtime.Label) : bool :=
  match runtime.run ls (runtime.init (main.main process.Args c)) with
  | Some _ => true
  | None => false
  end.

(** The state a run of [start] ends in. *)
Definition after (c : cli.Context) (ls : list runtime.Label) : runtime.Config :=
  default (runtime.init (main.main process.Args c))
          (runtime.run ls (runtime.init (main.main process.Args c))).

(** ** More inputs and vocabulary for the handlers *)

(** The body of a listing: one line per item, in the order given. *)
Definition listing (items : list storage.Item) : string :=
  fold_right String.append EmptyString (map apiserver.item_line items).

(** The response the server has completed with this status and body. *)
Definition answered (code : Z) (text : string) (broken : option error) : http.response :=
  {| http.wroteHeader := true; http.status := code; http.body := text;
     http.broken := broken |}.

(** [driver.ErrBadConn] of database/sql/driver, an [errors.New] value: the
    error on which database/sql sends a statement again, up to three
    times, where [sql.QueryContext] above makes one attempt.  The
    theorems on a failing statement leave it out.  Values of [errors.New]
    are told apart by their text here, so every error with this text is
    left out with it. *)
Definition ErrBadConn : error := errors.New "driver: bad connection".

(** [errors.Is(err, target)] *)
Fixpoint errors_Is (err target : error) : bool :=
  errors.error_eqb err target
  || match err with
     | wrapError _ inner => errors_Is inner target
     | _ => false
     end.

(** A table of two rows; the environment's part in the round trips is
    left open. *)
Definition two_rows : list sql.Tuple :=
  [ {| sql.id := "ab73c9cd-fd98-4d3c-bbb2-25e232fb0277"; sql.name := "my-item" |};
    {| sql.id := "0c1e5a52-7d0b-4b8e-9d55-3f2b6a6f1c11"; sql.name := "widget" |} ].

Definition stocked_backend (f : option sql.Fault) : sql.Backend :=
  {| sql.items := two_rows; sql.accepts := fun _ => true;
     sql.trips := fun _ => {| sql.fault := f; sql.random := 7 |};
     sql.served := 0; sql.cursors := 0 |}.

Definition stocked_world (f : option sql.Fault) : World :=
  {| db := stocked_backend f; w := http.newResponse None; logs := [] |}.

(** A database that takes no empty name: the column with a check
    constraint. *)
Definition strict_backend : sql.Backend :=
  {| sql.items := []; sql.accepts := fun n => negb (String.eqb n "");
     sql.trips := sample_trips; sql.served := 0; sql.cursors := 0 |}.

Definition strict_world : World :=
  {| db := strict_backend; w := http.newResponse None; logs := [] |}.

(** [curl -X POST http://host/items], without a field [name]. *)
Definition nameless_POST : http.Request :=
  {| http.Method := "POST"; http.Path := "/items";
     http.PostForm := ∅; http.ctx := context.Background |}.

(** A request of a client that has gone away. *)
Definition cancelled_GET : http.Request :=
  {| http.Method := "GET"; http.Path := "/items"; http.PostForm := ∅;
     http.ctx := {| context.timeout := None; context.err := Some Canceled |} |}.

Definition cancelled_POST : http.Request :=
  {| http.Method := "POST"; http.Path := "/items";
     http.PostForm := {[ "name" := ["widget"] ]};
     http.ctx := {| context.timeout := None; context.err := Some Canceled |} |}.

Definition sample_DELETE : http.Request :=
  {| http.Method := "DELETE"; http.Path := "/items";
     http.PostForm := ∅; http.ctx := context.Background |}.

(** The statuses the server answers with on the paths of its routes. *)
Definition statuses : list Z :=
  [http.StatusOK; http.StatusCreated; http.StatusMethodNotAllowed;
   http.StatusInternalServerError].

(** ** More that holds at every point the process reaches *)

Module lifecycle.
Import runtime process.

Section Flags.

Variable c : cli.Context.

Record steady (a : Points) : Prop := {
  shut_stays :
    match pm a with
    | M_returned _ => p_server a = ShutDown
    | _ => True
    end;
  bound_once : (length (binds (p_trace a)) <= 1)%nat;
  bound_addr : forall x r, In (x, r) (binds (p_trace a)) -> x = addr c;
  unbound :
    match pl a, p_server a with
    | L_starting, _ | L_serve, Idle => binds (p_trace a) = []
    | _, _ => True
    end;
  listening_bound : p_server a = Listening -> binds (p_trace a) = [(addr c, None)]
}.

End Flags.

End lifecycle.


Definition run_slow_shutdown : list runtime.Label :=
  run_signalled
  ++ [runtime.Sched 0 runtime.Silent; runtime.Sched 0 runtime.Silent;
      runtime.Sched 0 (runtime.Drained (31 * time.Second))].

(** * Theorems *)

(** ** The storage package *)

Lemma uuid_length r : String.length (sql.gen_random_uuid r) = 36%nat.
Proof. reflexivity. Qed.

Lemma uuid_nonempty r : sql.gen_random_uuid r <> EmptyString.
Proof.
  intros H. pose proof (uuid_length r) as L. rewrite H in L. discriminate.
Qed.

Lemma append_assoc (a b c : string) : (a +:+ b) +:+ c = a +:+ (b +:+ c).
Proof.
  induction a as [|x a IH]; [reflexivity|].
  change (String x ((a +:+ b) +:+ c) = String x (a +:+ b +:+ c)). now rewrite IH.
Qed.

Lemma append_nil_r (a : string) : a +:+ EmptyString = a.
Proof.
  induction a as [|x a IH]; [reflexivity|].
  change (String x (a +:+ EmptyString) = String x a). now rewrite IH.
Qed.

Lemma ListItems_loop_pure lasterr cells acc st :
  storage.ListItems_loop lasterr cells acc st = (scan_cells cells acc, st).
Proof.
  revert acc. induction cells as [|[t|e] cells IH]; intros acc; simpl; try reflexivity.
  unfold mbind, M_bind; simpl. apply IH.
Qed.

(** The recursion of [ListItems_loop] is the loop over [rows.Next()]. *)
Lemma ListItems_loop_Next (rows : sql.Rows) (items : list storage.Item) :
  storage.ListItems_loop (sql.lasterr rows) (sql.pending rows) items =
  match sql.Next rows with
  | (false, _) => mret (Ok items)
  | (true, rows) =>
      r ← storage.ScanItem rows;
      match r with
      | Err err => mret (Err (fmt.Errorf "could not scan item: " err))
      | Ok item =>
          storage.ListItems_loop (sql.lasterr rows) (sql.pending rows) (items ++ [item])
      end
  end.
Proof. unfold sql.Next. destruct (sql.pending rows); reflexivity. Qed.

Lemma scan_cells_ok ts acc : scan_cells (map Ok ts) acc = Ok (acc ++ map to_item ts).
Proof.
  revert acc. induction ts as [|t ts IH]; intros acc; simpl.
  - now rewrite app_nil_r.
  - rewrite IH. now rewrite <- app_assoc.
Qed.

Lemma scan_cells_err cells acc e :
  scan_cells cells acc = Err e ->
  exists n e0, cells !! n = Some (Err e0) /\ e = fmt.Errorf "could not scan item: " e0.
Proof.
  revert acc. induction cells as [|[t|e1] cells IH]; intros acc; simpl; intros H.
  - discriminate.
  - destruct (IH _ H) as (n & e0 & Hn & He). exists (S n), e0. auto.
  - exists 0%nat, e1. split; [reflexivity | congruence].
Qed.

(** ListItems in terms of the one query it sends. *)
Lemma ListItems_run s ctx st :
  storage.ListItems s ctx st =
  match sql.QueryContext (storage.conn s) ctx "SELECT id, name FROM items" [] (db st) with
  | (Err e, b) => (Err (fmt.Errorf "could not retrieve items: " e), with_db b st)
  | (Ok rows, b) => (scan_cells (sql.pending rows) [], with_db (sql.close_cursor b) st)
  end.
Proof.
  unfold storage.ListItems, mbind, M_bind, on_db.
  destruct (sql.QueryContext _ _ _ _ _) as [[rows|e] b]; simpl; [|reflexivity].
  rewrite ListItems_loop_pure. reflexivity.
Qed.

(** The deferred [rows.Close()]: on every path ListItems leaves as many
    result sets open as it found. *)
Lemma ListItems_releases_cursor s ctx st :
  sql.cursors (db (snd (storage.ListItems s ctx st))) = sql.cursors (db st).
Proof.
  rewrite ListItems_run. unfold sql.QueryContext.
  destruct (context.err ctx); [reflexivity|].
  destruct (sql.fault _) as [[e|n e|n e]|]; try reflexivity;
    unfold sql.execute; simpl; reflexivity.
Qed.

(** CreateItem in terms of the one statement it sends. *)
Lemma CreateItem_run s ctx i st :
  storage.CreateItem s ctx i st =
  let (row, b) := sql.QueryRowContext (storage.conn s) ctx
                    "INSERT INTO items(name) VALUES($1) RETURNING id, name"
                    [storage.Name_ i] (db st) in
  let (r, b) := sql.Row_Scan row b in
  (match r with Ok t => Ok (to_item t) | Err e => Err e end, with_db b st).
Proof.
  unfold storage.CreateItem, storage.ScanItem, mbind, M_bind, on_db.
  destruct (sql.QueryRowContext _ _ _ _ _) as [row b]; simpl.
  unfold storage.Scan, storage.Row_Scanner, on_db; simpl.
  destruct (sql.Row_Scan row b) as [[t|e] b']; reflexivity.
Qed.

(** A sound round trip of the INSERT. *)
Lemma CreateItem_sound s ctx name st :
  sql.accepts (db st) name = true ->
  context.err ctx = None ->
  sql.fault (sql.trips (db st) (sql.served (db st))) = None ->
  storage.CreateItem s ctx {| storage.Name_ := name |} st =
  let t := {| sql.id := sql.gen_random_uuid
                          (sql.random (sql.trips (db st) (sql.served (db st))));
              sql.name := name |} in
  (Ok (to_item t), with_db (sql.store t (sql.tick (db st))) st).
Proof.
  intros Hacc Hctx Hf. rewrite CreateItem_run.
  unfold sql.QueryRowContext, sql.QueryContext. rewrite Hctx, Hf.
  unfold sql.execute; simpl. rewrite Hacc. simpl.
  unfold with_db. destruct st as [b r l]; destruct b; reflexivity.
Qed.

Lemma ListItems_sound s ctx st :
  context.err ctx = None ->
  sql.fault (sql.trips (db st) (sql.served (db st))) = None ->
  storage.ListItems s ctx st =
  (Ok (map to_item (sql.items (db st))), with_db (sql.tick (db st)) st).
Proof.
  intros Hctx Hf. rewrite ListItems_run.
  unfold sql.QueryContext. rewrite Hctx, Hf.
  unfold sql.execute; simpl. rewrite scan_cells_ok.
  unfold with_db. destruct st as [b r l]; destruct b; reflexivity.
Qed.

(** ** The routes *)

Lemma route_POST_items api req :
  http.Method req = "POST" -> http.Path req = "/items" ->
  the_router api req =
  apiserver.Endpoint_ServeHTTP {| apiserver.handler := apiserver.createItem api |} req.
Proof.
  intros Hm Hp. unfold the_router, apiserver.Router_ServeHTTP, apiserver.Match,
    apiserver.router, apiserver.path_matches, apiserver.method_matches; simpl.
  rewrite Hm, Hp. reflexivity.
Qed.

Lemma route_GET_items api req :
  http.Method req = "GET" -> http.Path req = "/items" ->
  the_router api req =
  apiserver.Endpoint_ServeHTTP {| apiserver.handler := apiserver.listItems api |} req.
Proof.
  intros Hm Hp. unfold the_router, apiserver.Router_ServeHTTP, apiserver.Match,
    apiserver.router, apiserver.path_matches, apiserver.method_matches; simpl.
  rewrite Hm, Hp. reflexivity.
Qed.

(** What the shared dispatcher adds to a handler's run. *)
Lemma Endpoint_ServeHTTP_run (h : apiserver.EndpointFunc) req st r st1 :
  h req st = (r, st1) ->
  apiserver.Endpoint_ServeHTTP {| apiserver.handler := h |} req st =
  (tt, match r with
       | None => st1
       | Some err =>
           {| db := db st1;
              w := snd (http.Write "internal server error"
                          (http.WriteHeader http.StatusInternalServerError (w st1)));
              logs := logs st1 ++ [request_error err] |}
       end).
Proof.
  intros H. unfold apiserver.Endpoint_ServeHTTP, mbind, M_bind; simpl. rewrite H.
  destruct r as [err|]; [|reflexivity].
  unfold log, on_w, mret, M_ret; simpl.
  destruct (http.Write _ _) as [x r']. reflexivity.
Qed.

Lemma createItem_run api req st :
  apiserver.createItem api req st =
  match storage.CreateItem (apiserver.storage api) (http.Context req)
          {| storage.Name_ := http.PostFormValue req "name" |} st with
  | (Err err, st1) => (Some err, st1)
  | (Ok item, st1) =>
      let r := http.Write ("New Item ID: " +:+ storage.ID item)
                 (http.WriteHeader http.StatusCreated (w st1)) in
      (snd (fst r), with_w (snd r) st1)
  end.
Proof.
  unfold apiserver.createItem, mbind, M_bind.
  destruct (storage.CreateItem _ _ _ st) as [[item|err] st1]; [|reflexivity].
  unfold on_w; simpl. destruct (http.Write _ _) as [[n e] r']. reflexivity.
Qed.

Lemma listItems_range_sound items st :
  http.wroteHeader (w st) = true -> http.broken (w st) = None ->
  apiserver.listItems_range items st =
  (tt, with_w {| http.wroteHeader := true; http.status := http.status (w st);
                 http.body := http.body (w st)
                              +:+ fold_right String.append EmptyString
                                    (map apiserver.item_line items);
                 http.broken := None |} st).
Proof.
  revert st. induction items as [|item items IH]; intros [b r l] Hh Hb; simpl in *.
  - rewrite append_nil_r. destruct r; simpl in *; subst. reflexivity.
  - destruct r as [h c t br]; simpl in *; subst.
    unfold mbind, M_bind, on_w, http.Write, http.WriteHeader; simpl.
    rewrite IH by reflexivity. simpl.
    unfold with_w; simpl. now rewrite append_assoc.
Qed.

Lemma listItems_run api req st :
  apiserver.listItems api req st =
  match storage.ListItems (apiserver.storage api) (http.Context req) st with
  | (Err err, st1) => (Some err, st1)
  | (Ok items, st1) => (None, snd (apiserver.listItems_range items st1))
  end.
Proof.
  unfold apiserver.listItems, mbind, M_bind.
  destruct (storage.ListItems _ _ st) as [[items|err] st1]; [|reflexivity].
  destruct (apiserver.listItems_range items st1) as [[] st2]. reflexivity.
Qed.

(** The storage package never touches the response writer or the log. *)
Lemma CreateItem_frame s ctx i st r l :
  storage.CreateItem s ctx i {| db := db st; w := r; logs := l |} =
  let (x, st1) := storage.CreateItem s ctx i st in
  (x, {| db := db st1; w := r; logs := l |}).
Proof.
  rewrite !CreateItem_run; simpl.
  destruct (sql.QueryRowContext _ _ _ _ _) as [row b].
  destruct (sql.Row_Scan row b) as [x b']. reflexivity.
Qed.

Lemma ListItems_frame s ctx st r l :
  storage.ListItems s ctx {| db := db st; w := r; logs := l |} =
  let (x, st1) := storage.ListItems s ctx st in
  (x, {| db := db st1; w := r; logs := l |}).
Proof.
  rewrite !ListItems_run; simpl.
  destruct (sql.QueryContext _ _ _ _ _) as [[rows|e] b]; reflexivity.
Qed.

(** C6: a request POST /items is answered by reading the form field
    [name] and calling CreateItem with it; when CreateItem succeeds the
    response is 201 with body "New Item ID: {id}", when it fails the
    response is 500 with body "internal server error" (and the error is
    logged).  The client's connection is taken to be sound. *)
Theorem POST_items_response (api : apiserver.APIServer) (req : http.Request)
    (st st1 : World) (r : Result storage.Item) :
  http.Method req = "POST" ->
  http.Path req = "/items" ->
  storage.CreateItem (apiserver.storage api) (http.Context req)
    {| storage.Name_ := http.PostFormValue req "name" |} st = (r, st1) ->
  apiserver.serve (the_router api) None req st =
  match r with
  | Ok item =>
      let resp := {| http.wroteHeader := true; http.status := 201;
                     http.body := "New Item ID: " +:+ storage.ID item;
                     http.broken := None |} in
      (resp, {| db := db st1; w := resp; logs := logs st |})
  | Err err =>
      let resp := {| http.wroteHeader := true; http.status := 500;
                     http.body := "internal server error";
                     http.broken := None |} in
      (resp, {| db := db st1; w := resp; logs := logs st ++ [request_error err] |})
  end.
Proof.
  intros Hm Hp Hc. unfold apiserver.serve.
  rewrite (route_POST_items _ _ Hm Hp).
  destruct r as [item|err].
  - erewrite Endpoint_ServeHTTP_run.
    2:{ rewrite createItem_run, CreateItem_frame, Hc. reflexivity. }
    reflexivity.
  - erewrite Endpoint_ServeHTTP_run.
    2:{ rewrite createItem_run, CreateItem_frame, Hc. reflexivity. }
    reflexivity.
Qed.

Lemma POST_items_response_witness :
  http.Method sample_POST = "POST" /\
  http.Path sample_POST = "/items" /\
  fst (apiserver.serve (the_router sample_api) None sample_POST sample_world) =
  {| http.wroteHeader := true; http.status := 201;
     http.body := "New Item ID: 00000000-0000-4000-9122-10f47de98115";
     http.broken := None |}.
Proof.
  split; [reflexivity|]. split; [reflexivity|].
  rewrite (POST_items_response sample_api sample_POST sample_world
             (snd (storage.CreateItem sample_storage context.Background
                     {| storage.Name_ := "widget" |} sample_world))
             (fst (storage.CreateItem sample_storage context.Background
                     {| storage.Name_ := "widget" |} sample_world)));
    [ | reflexivity | reflexivity | vm_compute; reflexivity ].
  vm_compute. reflexivity.
Defined.

(** C9: when ListItems fails on a request GET /items, nothing of a listing
    is written: the response is 500 and its body is exactly "internal
    server error" (empty when the connection takes no writes), and the
    error is logged. *)
Theorem GET_items_failure_response (api : apiserver.APIServer) (req : http.Request)
    (st st1 : World) (err : error) (broken : option error) :
  http.Method req = "GET" ->
  http.Path req = "/items" ->
  storage.ListItems (apiserver.storage api) (http.Context req) st = (Err err, st1) ->
  let resp := {| http.wroteHeader := true; http.status := 500;
                 http.body := match broken with
                              | None => "internal server error"
                              | Some _ => EmptyString
                              end;
                 http.broken := broken |} in
  apiserver.serve (the_router api) broken req st =
  (resp, {| db := db st1; w := resp; logs := logs st ++ [request_error err] |}).
Proof.
  intros Hm Hp Hl. unfold apiserver.serve.
  rewrite (route_GET_items _ _ Hm Hp).
  erewrite Endpoint_ServeHTTP_run.
  2:{ rewrite listItems_run, ListItems_frame, Hl. reflexivity. }
  destruct broken; reflexivity.
Qed.

Lemma GET_items_failure_response_witness :
  http.Method sample_GET = "GET" /\
  http.Path sample_GET = "/items" /\
  fst (storage.ListItems sample_storage context.Background failing_world) =
    Err (fmt.Errorf "could not retrieve items: " (errorString "connection refused")) /\
  fst (apiserver.serve (the_router sample_api) None sample_GET failing_world) =
  {| http.wroteHeader := true; http.status := 500;
     http.body := "internal server error"; http.broken := None |}.
Proof.
  split; [reflexivity|]. split; [reflexivity|]. split; [reflexivity|].
  rewrite (GET_items_failure_response sample_api sample_GET failing_world
             (snd (storage.ListItems sample_storage context.Background failing_world))
             (fmt.Errorf "could not retrieve items: " (errorString "connection refused"))
             None);
    [ | reflexivity | reflexivity | vm_compute; reflexivity ].
  reflexivity.
Defined.

(** C7: on a table without rows, ListItems returns the empty sequence and
    no error whenever its query goes through; and whenever ListItems
    returns an error, either the query failed or the scan of a row did. *)
Theorem ListItems_empty_store_and_errors (s : storage.Storage) (ctx : context.Context)
    (st : World) :
  (sql.items (db st) = [] ->
   forall rows b,
     sql.QueryContext (storage.conn s) ctx "SELECT id, name FROM items" [] (db st)
       = (Ok rows, b) ->
     fst (storage.ListItems s ctx st) = Ok []) /\
  (forall err st1,
     storage.ListItems s ctx st = (Err err, st1) ->
     (exists e b,
        sql.QueryContext (storage.conn s) ctx "SELECT id, name FROM items" [] (db st)
          = (Err e, b) /\
        err = fmt.Errorf "could not retrieve items: " e) \/
     (exists rows b n e,
        sql.QueryContext (storage.conn s) ctx "SELECT id, name FROM items" [] (db st)
          = (Ok rows, b) /\
        sql.pending rows !! n = Some (Err e) /\
        err = fmt.Errorf "could not scan item: " e)).
Proof.
  split.
  - intros Hempty rows b Hq. rewrite ListItems_run, Hq. simpl.
    assert (Hp : sql.pending rows = []).
    { revert Hq. unfold sql.QueryContext.
      destruct (context.err ctx); [discriminate|].
      destruct (sql.fault _) as [[e|n e|n e]|]; try discriminate;
        unfold sql.execute; simpl; rewrite Hempty; simpl;
        intros H; inversion H; subst; simpl; try reflexivity.
      now rewrite take_nil. }
    now rewrite Hp.
  - intros err st1. rewrite ListItems_run.
    destruct (sql.QueryContext _ _ _ _ _) as [[rows|e] b] eqn:Hq; intros H.
    + right. inversion H as [[Hs Hst]].
      destruct (scan_cells_err _ _ _ Hs) as (n & e0 & Hn & He).
      exists rows, b, n, e0. auto.
    + left. inversion H; subst. exists e, b. auto.
Qed.

Lemma ListItems_empty_store_and_errors_witness :
  sql.items (db sample_world) = [] /\
  fst (storage.ListItems sample_storage context.Background sample_world) = Ok [].
Proof.
  split; [reflexivity|].
  eapply (proj1 (ListItems_empty_store_and_errors sample_storage context.Background
                   sample_world));
    [reflexivity | vm_compute; reflexivity].
Defined.

Lemma fold_lines_split (item : storage.Item) (items : list storage.Item) :
  In item items ->
  exists pre post,
    fold_right String.append EmptyString (map apiserver.item_line items)
    = pre +:+ apiserver.item_line item +:+ post.
Proof.
  induction items as [|x items IH]; intros Hin; [destruct Hin|].
  destruct Hin as [->|Hin].
  - exists EmptyString, (fold_right String.append EmptyString
                           (map apiserver.item_line items)). reflexivity.
  - destruct (IH Hin) as (pre & post & E).
    exists (apiserver.item_line x +:+ pre), post. simpl. rewrite E.
    now rewrite append_assoc.
Qed.

(** C1: for a non-empty name the database accepts, on sound round trips,
    CreateItem returns an item with that name and a non-empty generated
    identifier, ListItems then returns a sequence that contains it, and the
    response to GET /items then includes the line "{id} - {name}". *)
Theorem CreateItem_then_ListItems (api : apiserver.APIServer) (ctx : context.Context)
    (name : string) (req : http.Request) (st : World) :
  name <> EmptyString ->
  sql.accepts (db st) name = true ->
  context.err ctx = None ->
  sql.fault (sql.trips (db st) (sql.served (db st))) = None ->
  sql.fault (sql.trips (db st) (S (sql.served (db st)))) = None ->
  http.Method req = "GET" ->
  http.Path req = "/items" ->
  context.err (http.Context req) = None ->
  exists item st1,
    storage.CreateItem (apiserver.storage api) ctx {| storage.Name_ := name |} st
      = (Ok item, st1) /\
    storage.Name item = name /\
    storage.ID item <> EmptyString /\
    storage.ID item
      = sql.gen_random_uuid (sql.random (sql.trips (db st) (sql.served (db st)))) /\
    (exists items st2,
       storage.ListItems (apiserver.storage api) ctx st1 = (Ok items, st2) /\
       In item items) /\
    (exists pre post,
       let resp := fst (apiserver.serve (the_router api) None req st1) in
       http.status resp = 200 /\
       http.body resp
       = pre +:+ (storage.ID item +:+ " - " +:+ name +:+ String "010"%char EmptyString)
             +:+ post).
Proof.
  intros Hname Hacc Hctx Hf1 Hf2 Hm Hp Hrctx.
  pose (t := {| sql.id := sql.gen_random_uuid
                            (sql.random (sql.trips (db st) (sql.served (db st))));
                sql.name := name |}).
  exists (to_item t), (with_db (sql.store t (sql.tick (db st))) st).
  split; [now apply CreateItem_sound|].
  split; [reflexivity|].
  split; [apply uuid_nonempty|].
  split; [reflexivity|].
  assert (Hin : In (to_item t) (map to_item (sql.items (db st) ++ [t]))).
  { rewrite map_app. apply in_or_app. right. now left. }
  split.
  - eexists _, _. split; [apply ListItems_sound; [exact Hctx | exact Hf2]|].
    exact Hin.
  - destruct (fold_lines_split _ _ Hin) as (pre & post & E).
    exists pre, post. unfold apiserver.serve.
    rewrite (route_GET_items _ _ Hm Hp).
    erewrite Endpoint_ServeHTTP_run.
    2:{ rewrite listItems_run, ListItems_sound by (simpl; assumption). reflexivity. }
    simpl.
    destruct (map to_item (sql.items (db st) ++ [t])) as [|x items] eqn:El;
      [destruct Hin|].
    simpl. unfold mbind, M_bind, on_w; simpl.
    rewrite listItems_range_sound by reflexivity. simpl.
    split; [reflexivity|].
    simpl in E.
    transitivity (apiserver.item_line x
                  +:+ fold_right String.append EmptyString
                        (map apiserver.item_line items)); [reflexivity|].
    rewrite E. reflexivity.
Qed.

Lemma CreateItem_then_ListItems_witness :
  "widget" <> EmptyString /\
  exists item st1,
    storage.CreateItem sample_storage context.Background
      {| storage.Name_ := "widget" |} sample_world = (Ok item, st1) /\
    storage.Name item = "widget" /\
    storage.ID item = "00000000-0000-4000-9122-10f47de98115" /\
    http.body (fst (apiserver.serve (the_router sample_api) None sample_GET st1))
    = "00000000-0000-4000-9122-10f47de98115 - widget" +:+ String "010"%char EmptyString.
Proof.
  split; [discriminate|].
  destruct (CreateItem_then_ListItems sample_api context.Background "widget"
              sample_GET sample_world)
    as (item & st1 & Hc & Hn & _ & Hid & _ & _);
    try reflexivity; try discriminate.
  exists item, st1. split; [exact Hc|]. split; [exact Hn|].
  split; [rewrite Hid; reflexivity|].
  vm_compute in Hc. inversion Hc; subst. vm_compute. reflexivity.
Defined.

(** C3 as the specification states it fails: the route "/" is registered
    with a plain handler function, not with an [Endpoint]. *)
Lemma not_every_route_is_an_Endpoint :
  ~ (forall (api : apiserver.APIServer) (r : apiserver.Route),
       In r (apiserver.router api) -> is_endpoint (apiserver.route_handler r) = true).
Proof.
  intros H.
  specialize (H sample_api
                {| apiserver.methods := []; apiserver.path := "/";
                   apiserver.route_handler :=
                     apiserver.HandlerFunc (apiserver.defaultRoute sample_api) |}).
  simpl in H. discriminate H. now left.
Qed.

(** C3, amended: the handlers of the two routes on /items return an error
    value and are served through [Endpoint.ServeHTTP], which logs a
    returned error and then writes status 500 and the body "internal
    server error"; a handler that fails before it has written anything is
    so answered by exactly that response.  The handler of the route "/" is
    a plain function without an error value, which writes 200 "Hello
    World" itself.  The server completes every response, whatever the
    handler has written. *)
Theorem items_routes_are_Endpoints (api : apiserver.APIServer) :
  (forall r, In r (apiserver.router api) ->
     (apiserver.path r = "/items" ->
        apiserver.route_handler r
          = apiserver.EndpointHandler {| apiserver.handler := apiserver.createItem api |}
        \/ apiserver.route_handler r
          = apiserver.EndpointHandler {| apiserver.handler := apiserver.listItems api |})
     /\
     (apiserver.path r <> "/items" ->
        apiserver.route_handler r = apiserver.HandlerFunc (apiserver.defaultRoute api)))
  /\
  (forall (h : apiserver.EndpointFunc) req st r st1,
     h req st = (r, st1) ->
     apiserver.ServeHTTP (apiserver.EndpointHandler {| apiserver.handler := h |}) req st =
     (tt, match r with
          | None => st1
          | Some err =>
              {| db := db st1;
                 w := snd (http.Write "internal server error"
                             (http.WriteHeader 500 (w st1)));
                 logs := logs st1 ++ [request_error err] |}
          end))
  /\
  (forall (h : apiserver.EndpointFunc) req st err st1,
     h req (with_w (http.newResponse None) st) = (Some err, st1) ->
     w st1 = http.newResponse None ->
     fst (apiserver.serve
            (apiserver.ServeHTTP (apiserver.EndpointHandler {| apiserver.handler := h |}))
            None req st)
     = {| http.wroteHeader := true; http.status := 500;
          http.body := "internal server error"; http.broken := None |})
  /\
  (forall req st,
     fst (apiserver.serve
            (apiserver.ServeHTTP (apiserver.HandlerFunc (apiserver.defaultRoute api)))
            None req st)
     = {| http.wroteHeader := true; http.status := 200;
          http.body := "Hello World"; http.broken := None |})
  /\
  (forall h broken req st,
     http.wroteHeader (fst (apiserver.serve h broken req st)) = true).
Proof.
  split; [|split; [|split; [|split]]].
  - intros r [<-|[<-|[<-|[]]]]; simpl; split; intros H; auto; try discriminate;
      try congruence.
  - intros h req st r st1 H. simpl. now apply Endpoint_ServeHTTP_run.
  - intros h req st err st1 H Hw. unfold apiserver.serve. simpl.
    erewrite Endpoint_ServeHTTP_run by exact H. simpl. rewrite Hw. reflexivity.
  - intros req st. reflexivity.
  - intros h broken req st. unfold apiserver.serve.
    destruct (h req _) as [[] st1]. simpl.
    unfold http.finishRequest, http.WriteHeader.
    destruct (http.wroteHeader (w st1)) eqn:E; [exact E|reflexivity].
Qed.

Lemma items_routes_are_Endpoints_witness :
  In {| apiserver.methods := ["GET"]; apiserver.path := "/items";
        apiserver.route_handler :=
          apiserver.EndpointHandler
            {| apiserver.handler := apiserver.listItems sample_api |} |}
     (apiserver.router sample_api) /\
  fst (apiserver.serve
         (apiserver.ServeHTTP
            (apiserver.EndpointHandler
               {| apiserver.handler := apiserver.listItems sample_api |}))
         None sample_GET failing_world)
  = {| http.wroteHeader := true; http.status := 500;
       http.body := "internal server error"; http.broken := None |}.
Proof.
  split; [right; right; left; reflexivity|].
  destruct (items_routes_are_Endpoints sample_api) as (_ & _ & H & _).
  eapply H; vm_compute; reflexivity.
Defined.

Module process_facts.
Import runtime process.

Section Flags.
Variable c : cli.Context.

(** The points are points of the program: [main] is the action of [start]
    followed by [main_tail], [Start] is its go statement followed by
    [Start_wait], and the handler of its server is the router. *)
Lemma main_points :
  main.main Args c = (done ← make_chan 1; from_notify c done) ≫= main_tail.
Proof. reflexivity. Qed.

Lemma Start_points :
  apiserver.Start (the_server c) stopper = (go (listen_code c L_starting);; Start_wait c).
Proof. reflexivity. Qed.

Lemma Start_handler : http.Handler (srv c) = the_router (the_server c).
Proof. reflexivity. Qed.

Ltac premises :=
  repeat match goal with
         | H : ?x = ?x -> _ |- _ => specialize (H eq_refl)
         | H : false = true -> _ |- _ => clear H
         | H : true = false -> _ |- _ => clear H
         end.

Ltac shape Hs :=
  pose proof (signal_waits _ _ Hs) as Hsw;
  pose proof (listen_waits _ _ Hs) as Hlw;
  pose proof (nothing_pending _ _ Hs) as Hnp;
  pose proof (stopped_first _ _ Hs) as Hsf;
  pose proof (fatal_error _ _ Hs) as Hfe;
  pose proof (addr_given _ _ Hs) as Hag;
  simpl in Hsw, Hlw, Hnp, Hsf, Hfe, Hag; premises; subst.

(** Every step of the process from a sound point is the move the points
    make. *)
Lemma step_state (l : Label) (a : Points) :
  sound c a -> step l (state c a) = state c <$> move c l a.
Proof.
  intros Hs. destruct a as [m g h q sv lg tr st].
  unfold step, move. simpl. destruct st; try reflexivity.
  destruct l as [t ans|s].
  - destruct t as [|[|[|t]]].
    + (* goroutine 0 *)
      destruct m; shape Hs; simpl; try reflexivity.
      * destruct ans as [|[e|]| | |]; try reflexivity.
        unfold move_main, apiserver.NewAPIServer; simpl. fold (addr c).
        destruct (String.eqb (addr c) ""); reflexivity.
      * destruct g; reflexivity.
      * destruct ans as [| | | |d]; try reflexivity.
        unfold move_main; simpl. destruct (d <? 0); reflexivity.
      * unfold move_main; simpl.
        destruct (shutdown_result stop_ctx d); reflexivity.
    + (* goroutine 1 *)
      destruct (forked m) eqn:Hf; [|destruct m; try discriminate; reflexivity].
      destruct m; try discriminate; shape Hs; simpl.
      all: try destruct g; try reflexivity.
      all: destruct q; reflexivity.
    + (* goroutine 2 *)
      destruct (started m) eqn:Hf; [|destruct m; try discriminate; reflexivity].
      destruct m; try discriminate; shape Hs; simpl.
      all: destruct h; try reflexivity.
      all: unfold move_listen; simpl; destruct sv; try reflexivity.
      all: destruct ans as [| |[e|]|e|]; try reflexivity.
      all: unfold listen_result; simpl.
      all: destruct (errors.error_eqb e ErrServerClosed) eqn:He; try reflexivity.
    + (* no other goroutine *)
      destruct m; reflexivity.
  - (* a signal *)
    unfold deliver, move_deliver; simpl.
    destruct m; shape Hs; simpl.
    all: destruct s; try reflexivity.
    all: unfold relay; simpl; destruct (length q <? 1)%nat; reflexivity.
Qed.

Lemma start_state : state c (start) = init (main.main Args c).
Proof. reflexivity. Qed.

Lemma start_sound : sound c start.
Proof. split; simpl; try reflexivity; try discriminate; auto with arith. Qed.

Ltac facts Hs :=
  destruct Hs as [Hsw Hlw Hnp Hop Hsf Hco Hsg Hsc Hcs Hsh Hon Hbs Hss Hlf Hfe Hag Hex];
  unfold exit_ok in Hex; simpl in *; premises.

Ltac cases H :=
  repeat match type of H with
         | context [is_end ?x] => is_var x; destruct x; simpl in H; try discriminate
         | context [match ?x with _ => _ end] => destruct x eqn:?; try discriminate
         end.

Ltac close_field :=
  simpl in *; intros; subst; rewrite ?last_snoc;
  repeat match goal with
         | |- context [match ?x with _ => _ end] => destruct x eqn:?
         end;
  simpl in *;
  try solve [ reflexivity | assumption | discriminate | congruence | lia
            | auto with arith | tauto | intuition (eauto; congruence) | eauto 10 ];
  try (repeat match goal with
              | H : context [match ?x with _ => _ end] |- _ => is_var x; destruct x
              end;
       simpl in *; solve [ intuition (eauto; congruence) ]).

Lemma move_sound (l : Label) (a a' : Points) :
  sound c a -> move c l a = Some a' -> sound c a'.
Proof.
  intros Hs Hm. destruct a as [m g h q sv lg tr st].
  unfold move in Hm; simpl in Hm. destruct st; try discriminate.
  destruct l as [t ans|s].
  - destruct t as [|[|[|t]]]; [| | |discriminate].
    + (* goroutine 0 *)
      unfold move_main in Hm; simpl in Hm.
      destruct m; facts Hs; cases Hm.
      all: inversion Hm; subst; clear Hm.
      all: split; unfold exit_ok; close_field.
    + (* goroutine 1 *)
      destruct (forked m) eqn:Hf; [|discriminate].
      unfold move_signal in Hm; simpl in Hm.
      destruct m; try discriminate; facts Hs; cases Hm.
      all: inversion Hm; subst; clear Hm.
      all: split; unfold exit_ok; close_field.
    + (* goroutine 2 *)
      destruct (started m) eqn:Hf; [|discriminate].
      unfold move_listen in Hm; simpl in Hm.
      destruct m; try discriminate; facts Hs; cases Hm.
      all: inversion Hm; subst; clear Hm.
      all: split; unfold exit_ok; close_field.
  - unfold move_deliver in Hm; simpl in Hm.
    destruct m; facts Hs; destruct s; try destruct q as [|x [|y q]]; simpl in Hm.
    all: inversion Hm; subst; clear Hm.
    all: split; unfold exit_ok; close_field.
Qed.

Lemma run_state (ls : list Label) (a : Points) :
  sound c a -> run ls (state c a) = state c <$> moves c ls a.
Proof.
  revert a. induction ls as [|l ls IH]; intros a Hs; [reflexivity|].
  simpl. rewrite (step_state l a Hs).
  destruct (move c l a) as [a'|] eqn:Hm; [|reflexivity].
  simpl. apply IH. exact (move_sound l a a' Hs Hm).
Qed.

Lemma moves_sound (ls : list Label) (a a' : Points) :
  sound c a -> moves c ls a = Some a' -> sound c a'.
Proof.
  revert a. induction ls as [|l ls IH]; intros a Hs H; simpl in H.
  - now inversion H; subst.
  - destruct (move c l a) as [a1|] eqn:Hm; [|discriminate].
    exact (IH a1 (move_sound l a a1 Hs Hm) H).
Qed.

(** Every state the process reaches is the state at sound points. *)
Lemma reachable_points (cfg : Config) :
  reachable (main.main Args c) cfg -> exists a, cfg = state c a /\ sound c a.
Proof.
  intros [ls Hr]. rewrite <- start_state, (run_state ls _ start_sound) in Hr.
  destruct (moves c ls (start)) as [a|] eqn:Hm; [|discriminate].
  inversion Hr; subst. exists a. split; [reflexivity|].
  exact (moves_sound ls _ a start_sound Hm).
Qed.

Lemma reachable_run (ls : list Label) (cfg cfg' : Config) :
  reachable (main.main Args c) cfg -> run ls cfg = Some cfg' ->
  reachable (main.main Args c) cfg'.
Proof.
  intros [ls0 H0] H. exists (ls0 ++ ls). revert H0.
  generalize (init (main.main Args c)).
  induction ls0 as [|l ls0 IH]; intros c0 H0; simpl in *.
  - now inversion H0; subst.
  - destruct (step l c0) as [c1|]; [|discriminate]. now apply IH.
Qed.

(** C4: in every state the process of [start] reaches, the stop channel
    has been closed at most once, only it has been closed, and the close
    came after the delivery of an interrupt or termination signal; the
    process has not panicked, however many signals were delivered; and
    once such a signal has been delivered to the running process, the
    close can still take place, after which it has taken place exactly
    once. *)
Theorem stopper_closed_once (cfg : Config) :
  reachable (main.main Args c) cfg ->
  (length (closes (trace cfg)) <= 1)%nat /\
  (forall ch, In ch (closes (trace cfg)) -> ch = stopper) /\
  (closes (trace cfg) <> [] -> stop_signals (trace cfg) <> []) /\
  close_after_signal (trace cfg) /\
  (forall msg, status cfg <> Panicked msg) /\
  (status cfg = Running -> stop_signals (trace cfg) <> [] ->
   exists ls cfg', run ls cfg = Some cfg' /\ closes (trace cfg') = [stopper]).
Proof.
  intros Hr. destruct (reachable_points cfg Hr) as (a & -> & Hs).
  pose proof (closed_once _ _ Hs) as Hco.
  pose proof (signal_first _ _ Hs) as Hsg.
  pose proof (exits _ _ Hs) as Hex.
  pose proof (signal_then_close _ _ Hs) as Hsc.
  destruct a as [m g h q sv lg tr st]; simpl in *.
  split; [rewrite Hco; destruct g; simpl; lia|].
  split; [rewrite Hco; destruct g; simpl; intuition|].
  split.
  { rewrite Hco. destruct g, q; simpl in *; auto; congruence. }
  split; [exact Hsc|].
  split.
  { intros msg ->. exact Hex. }
  intros -> Hsig.
  set (a := {| pm := m; ps := g; pl := h; pending := q; p_server := sv;
               p_log := lg; p_trace := tr; p_status := Running |}) in *.
  assert (H : exists ls a', moves c ls a = Some a' /\ ps a' = S_end).
  { pose proof (signal_waits _ _ Hs) as Hsw.
    pose proof (nothing_pending _ _ Hs) as Hnp.
    subst a; simpl in *.
    destruct g.
    - destruct q as [|x q]; [now specialize (Hsg eq_refl)|].
      destruct m; simpl in *; try discriminate (Hnp eq_refl).
      + exists [Sched 0 Silent; Sched 0 Silent; Sched 1 Silent; Sched 1 Silent].
        eexists; split; reflexivity.
      + exists [Sched 0 Silent; Sched 1 Silent; Sched 1 Silent].
        eexists; split; reflexivity.
      + exists [Sched 1 Silent; Sched 1 Silent]. eexists; split; reflexivity.
      + exists [Sched 1 Silent; Sched 1 Silent]. eexists; split; reflexivity.
      + exists [Sched 1 Silent; Sched 1 Silent]. eexists; split; reflexivity.
      + exists [Sched 1 Silent; Sched 1 Silent]. eexists; split; reflexivity.
      + exists [Sched 1 Silent; Sched 1 Silent]. eexists; split; reflexivity.
      + exists [Sched 1 Silent; Sched 1 Silent]. eexists; split; reflexivity.
      + exists [Sched 1 Silent; Sched 1 Silent]. eexists; split; reflexivity.
      + exists [Sched 1 Silent; Sched 1 Silent]. eexists; split; reflexivity.
    - destruct (forked m) eqn:Hf; [|discriminate (Hsw eq_refl)].
      exists [Sched 1 Silent].
      eexists; split; [unfold moves, move; simpl; rewrite Hf; reflexivity|reflexivity].
    - exists []. eexists; split; reflexivity. }
  destruct H as (ls & a' & Hm & Hend).
  exists ls, (state c a'). split.
  - rewrite (run_state ls a Hs), Hm. reflexivity.
  - simpl. rewrite (closed_once _ _ (moves_sound ls a a' Hs Hm)), Hend. reflexivity.
Qed.

Lemma main_tail_inj (r r' : option error) : main_tail r = main_tail r' -> r = r'.
Proof.
  destruct r, r'; cbv [main_tail logrus_Fatal mret Go_ret]; intros H;
    try discriminate; congruence.
Qed.

Lemma main_code_wait (m : MainPoint) :
  main_code c m = Start_wait c ≫= main_tail -> m = M_wait.
Proof.
  destruct m; simpl; intros H; try reflexivity; try discriminate.
  destruct (shutdown_result stop_ctx d); discriminate.
Qed.

Lemma main_code_tail (m : MainPoint) (r : option error) :
  main_code c m = main_tail r -> returned_error m = r /\
  (started m = true -> exists d, m = M_returned d).
Proof.
  destruct m; intros H; cbn [main_code] in H;
    try (apply main_tail_inj in H; split;
         [exact H|simpl; first [discriminate|solve [eauto]]]).
  all: destruct r; discriminate H.
Qed.

(** C2: while [Start] waits on the stop channel and the channel is open,
    its goroutine cannot take a step; once the channel is closed it goes
    on to [Shutdown], with a deadline of 30 seconds; and whenever a
    shutdown has taken place, it came after the close of the stop channel,
    its deadline was 30 seconds, and what [Start] handed back to its
    caller is the result of the shutdown: no error when the requests in
    flight completed within the deadline, the deadline-exceeded error
    otherwise. *)
Theorem Start_waits_then_shuts_down (cfg : Config) :
  reachable (main.main Args c) cfg ->
  (threads cfg !! 0%nat = Some (Start_wait c ≫= main_tail) ->
   is_closed (chans cfg) stopper = false ->
   forall a, step (Sched 0 a) cfg = None) /\
  (threads cfg !! 0%nat = Some (Start_wait c ≫= main_tail) ->
   is_closed (chans cfg) stopper = true ->
   status cfg = Running ->
   forall d, 0 <= d ->
     exists cfg',
       run [Sched 0 Silent; Sched 0 Silent; Sched 0 (Drained d)] cfg = Some cfg' /\
       shutdowns (trace cfg')
       = [(Some (30 * time.Second), d,
           if d <=? 30 * time.Second then None else Some DeadlineExceeded)]) /\
  (forall t d r, In (t, d, r) (shutdowns (trace cfg)) ->
     is_closed (chans cfg) stopper = true /\
     t = Some (30 * time.Second) /\
     r = (if d <=? 30 * time.Second then None else Some DeadlineExceeded) /\
     threads cfg !! 0%nat = Some (main_tail r)) /\
  shutdown_after_close (trace cfg) /\
  (length (shutdowns (trace cfg)) <= 1)%nat.
Proof.
  intros Hr. destruct (reachable_points cfg Hr) as (a & -> & Hs).
  pose proof (one_shutdown _ _ Hs) as Hsh.
  pose proof (stopped_first _ _ Hs) as Hsf.
  split; [|split; [|split; [|split]]].
  - intros Ht Hc ans. simpl in Ht. inversion Ht as [Hm].
    apply main_code_wait in Hm.
    rewrite (step_state _ _ Hs). unfold move.
    destruct a as [m g h q sv lg tr st]; simpl in *; subst m.
    destruct st; try reflexivity. simpl in *.
    destruct g; try reflexivity; discriminate.
  - intros Ht Hc Hst d Hd. simpl in Ht. inversion Ht as [Hm].
    apply main_code_wait in Hm.
    rewrite (run_state _ _ Hs).
    destruct a as [m g h q sv lg tr st]; simpl in *; subst m st.
    destruct g; try discriminate.
    unfold moves, move, move_main; simpl.
    destruct (d <? 0) eqn:E; [lia|].
    eexists. split; [reflexivity|].
    simpl. unfold shutdowns in *. simpl. rewrite Hsh. reflexivity.
  - intros t d r Hin. change (trace (state c a)) with (p_trace a) in Hin.
    rewrite Hsh in Hin.
    destruct a as [m g h q sv lg tr st]; simpl in *.
    destruct m; simpl in Hin; try contradiction.
    destruct Hin as [Hin|[]]. inversion Hin; subst.
    rewrite (Hsf eq_refl). repeat split; reflexivity.
  - exact (close_then_shutdown _ _ Hs).
  - change (trace (state c a)) with (p_trace a).
    rewrite Hsh. destruct (pm a); simpl; lia.
Qed.

Lemma exited_is_final (cfg : Config) (l : Label) :
  status cfg <> Running -> step l cfg = None.
Proof. unfold step. destruct (status cfg); congruence. Qed.

(** C10: when [ListenAndServe] has failed with an error (the address in
    use, say), the goroutine of [Start] stands before the fatal log call;
    its step ends the process at once with exit code 1 and the error
    logged, without any shutdown and with nothing able to run after it.
    Whatever [Start] returns to its caller is the result of a shutdown,
    never the error of the listener; and as long as the stop channel has
    not fired, no shutdown has taken place. *)
Theorem listen_failure_is_fatal (cfg : Config) (e : error) :
  reachable (main.main Args c) cfg ->
  In e (listen_errors (trace cfg)) ->
  e <> ErrServerClosed /\
  threads cfg !! 2%nat = Some (logrus_Fatal None (logrus.message (listen_fatal e))) /\
  (status cfg = Running ->
   forall a, exists cfg',
     step (Sched 2 a) cfg = Some cfg' /\
     status cfg' = Exited 1 /\
     log cfg' = log cfg ++ [listen_fatal e] /\
     trace cfg' = trace cfg /\
     forall l, step l cfg' = None) /\
  (forall r, threads cfg !! 0%nat = Some (main_tail r) ->
     exists d, shutdowns (trace cfg) = [(Some (30 * time.Second), d, r)] /\
               r = shutdown_result stop_ctx d) /\
  (is_closed (chans cfg) stopper = false -> shutdowns (trace cfg) = []).
Proof.
  intros Hr Hin. destruct (reachable_points cfg Hr) as (a & -> & Hs).
  change (trace (state c a)) with (p_trace a) in *.
  pose proof (listen_failed _ _ Hs) as Hlf.
  pose proof (listen_waits _ _ Hs) as Hlw.
  pose proof (fatal_error _ _ Hs) as Hfe.
  pose proof (one_shutdown _ _ Hs) as Hsh.
  pose proof (stopped_first _ _ Hs) as Hsf.
  rewrite Hlf in Hin.
  destruct (pl a) as [| |e'|] eqn:Hpl; try contradiction.
  destruct Hin as [->|[]].
  destruct (started (pm a)) eqn:Hst; [|discriminate (Hlw eq_refl)].
  assert (Hfk : forked (pm a) = true) by (destruct (pm a); auto; discriminate).
  split.
  { intros ->. discriminate (Hfe _ eq_refl). }
  split.
  { simpl. rewrite Hfk, Hst, Hpl. reflexivity. }
  split.
  { intros Hrun ans. rewrite (step_state _ _ Hs). unfold move. simpl in Hrun.
    rewrite Hrun, Hst. unfold move_listen. rewrite Hpl. simpl.
    eexists. split; [reflexivity|]. split; [reflexivity|].
    split; [reflexivity|]. split; [reflexivity|].
    intros l. now apply exited_is_final. }
  split.
  { intros r Ht. simpl in Ht. inversion Ht as [Hm].
    destruct (main_code_tail _ _ Hm) as [Hre Hd].
    destruct (Hd Hst) as [d Hpm]. rewrite Hpm in *. simpl in Hre.
    exists d. rewrite Hsh. subst r. split; reflexivity. }
  intros Hc. rewrite Hsh. clear - Hc Hsf.
  destruct a as [m g h q sv lg tr st]; simpl in *.
  destruct m; try reflexivity. simpl in *.
  rewrite (Hsf eq_refl) in Hc. discriminate.
Qed.

(** C8, amended: [NewStorage] does not look at the database URL.  It
    fails exactly when [sql.Open] returns an error, and database/sql, with
    the driver postgres registered, returns none whatever the URL is: the
    storage is constructed, [sql.Open] is called once, with the URL of
    the flag, and when the process exits with code 1 the cause is not the
    storage; with an address given the process comes up listening.  Where
    [sql.Open] does return an error, [NewStorage] returns it wrapped,
    the action wraps it again, and [main] stands before the fatal log
    call with it: its step logs the cause and ends the process with exit
    code 1, [sql.Open] is not called again and the server has never been
    bound. *)
Theorem NewStorage_fails_only_with_sql_Open (cfg : Config) (url : string)
    (r : option error) :
  reachable (main.main Args c) cfg ->
  In (url, r) (opens (trace cfg)) ->
  let failed e := fmt.Errorf "could not initialize storage: "
                    (fmt.Errorf "could not open sql: " e) in
  with_database_sql (storage.NewStorage url)
  = mret (Ok {| storage.conn := {| sql.driverName := "postgres";
                                   sql.dataSourceName := url |} |}) /\
  url = cli.String c "database-url" /\
  opens (trace cfg) = [(url, r)] /\
  match r with
  | None =>
      (forall e, threads cfg !! 0%nat <> Some (main_tail (Some (failed e)))) /\
      (forall e, status cfg = Exited 1 ->
         last (log cfg) <> Some (main_fatal (failed e)))
  | Some e =>
      threads cfg !! 0%nat = Some (main_tail (Some (failed e))) /\
      binds (trace cfg) = [] /\
      server cfg = Idle /\
      (status cfg = Running ->
       forall a, exists cfg',
         step (Sched 0 a) cfg = Some cfg' /\
         status cfg' = Exited 1 /\
         log cfg' = log cfg ++ [main_fatal (failed e)]) /\
      (forall code, status cfg = Exited code ->
         code = 1 /\ last (log cfg) = Some (main_fatal (failed e)))
  end /\
  (cli.String c "addr" <> EmptyString ->
   exists cfg1,
     run run_listening (init (main.main Args c)) = Some cfg1 /\
     opens (trace cfg1) = [(cli.String c "database-url", None)] /\
     server cfg1 = Listening /\
     status cfg1 = Running /\
     log cfg1 = [info [("addr", logrus.StringValue (cli.String c "addr"))]
                   "starting server"]).
Proof.
  intros Hr Hin failed. destruct (reachable_points cfg Hr) as (a & -> & Hs).
  change (trace (state c a)) with (p_trace a) in *.
  pose proof (one_open _ _ Hs) as Hon.
  pose proof (bind_started _ _ Hs) as Hbs.
  pose proof (serve_started _ _ Hs) as Hss.
  pose proof (exits _ _ Hs) as Hex. unfold exit_ok in Hex.
  split; [reflexivity|].
  assert (Hurl : url = cli.String c "database-url").
  { rewrite Hon in Hin.
    destruct (pm a); simpl in Hin; try contradiction;
      destruct Hin as [Hin|[]]; now inversion Hin. }
  split; [exact Hurl|]. split.
  { rewrite Hon in Hin |- *.
    destruct (pm a); simpl in Hin; try contradiction;
      destruct Hin as [Hin|[]]; now inversion Hin. }
  split.
  - destruct r as [e|].
    + rewrite Hon in Hin.
      destruct (pm a) eqn:Hpm; simpl in Hin; try contradiction;
        try (destruct Hin as [Hin|[]]; discriminate Hin).
      destruct Hin as [Hin|[]]. inversion Hin; subst e0. clear Hin.
      simpl in Hbs, Hss.
      split; [simpl; rewrite Hpm; reflexivity|].
      split; [now apply Hbs|]. split; [now apply Hss|].
      split.
      { intros Hrun ans. rewrite (step_state _ _ Hs). unfold move. simpl in Hrun.
        rewrite Hrun. unfold move_main. rewrite Hpm. simpl.
        eexists. split; [reflexivity|]. split; reflexivity. }
      intros code Hcode. simpl in Hcode. rewrite Hcode in Hex. simpl in Hex.
      destruct Hex as [(_ & d & Hd & _)|(-> & [(e1 & He1 & Hl)|(e1 & Hf & _)])];
        try discriminate.
      inversion He1; subst e1. split; [reflexivity|exact Hl].
    + assert (Hret : forall e, returned_error (pm a) <> Some (failed e)).
      { intros e. rewrite Hon in Hin.
        destruct (pm a) as [| | | | | |  | | | | |d]; simpl in Hin; try contradiction;
          try (destruct Hin as [Hin|[]]; discriminate Hin);
          simpl; try discriminate.
        unfold shutdown_result. simpl.
        destruct (d <=? apiserver.defaultStopTimeout); discriminate. }
      split.
      * intros e H.
        change (threads (state c a) !! 0%nat) with (Some (main_code c (pm a))) in H.
        injection H as H.
        apply (main_code_tail (pm a) (Some (failed e))) in H.
        exact (Hret e (proj1 H)).
      * intros e Hst Hl. simpl in Hst, Hl. rewrite Hst in Hex.
        destruct Hex as [(Hc & _)|(_ & [(e1 & He1 & Hl1)|(e1 & _ & _ & Hl1)])].
        -- discriminate.
        -- rewrite Hl1 in Hl. injection Hl as Hl. subst e1. exact (Hret e He1).
        -- rewrite Hl1 in Hl. discriminate.
  - intros Ha.
    assert (E : String.eqb (addr c) "" = false).
    { apply String.eqb_neq. exact Ha. }
    rewrite <- start_state, (run_state run_listening _ start_sound).
    unfold run_listening, run_to_wait. cbn [app moves].
    unfold move. cbn. unfold move_main. cbn. rewrite E. cbn.
    unfold move_listen. cbn.
    eexists. split; [reflexivity|]. cbn. auto.
Qed.

(** C5: [NewAPIServer] fails with the error "addr cannot be blank" on the
    empty address and succeeds on every other; and a process started
    without an address never binds a listener: the server stays idle, and
    when the process exits it has logged that error as fatal (unless the
    storage could not be constructed before). *)
Theorem NewAPIServer_needs_an_address (s : storage.Storage) :
  apiserver.NewAPIServer "" s = Err (errors.New "addr cannot be blank") /\
  (forall a, a <> EmptyString ->
     apiserver.NewAPIServer a s = Ok {| apiserver.addr := a; apiserver.storage := s |}) /\
  (forall cfg,
     cli.String c "addr" = EmptyString ->
     reachable (main.main Args c) cfg ->
     binds (trace cfg) = [] /\ server cfg = Idle /\
     forall code, status cfg = Exited code ->
       (code = 1 /\
        last (log cfg) = Some (main_fatal (errors.New "addr cannot be blank")))
       \/ exists e, In (cli.String c "database-url", Some e) (opens (trace cfg))).
Proof.
  split; [reflexivity|]. split.
  - intros a Ha. unfold apiserver.NewAPIServer.
    destruct (String.eqb_spec a ""); [contradiction|reflexivity].
  - intros cfg Haddr Hr. destruct (reachable_points cfg Hr) as (a & -> & Hs).
    change (trace (state c a)) with (p_trace a) in *.
    pose proof (bind_started _ _ Hs) as Hbs.
    pose proof (serve_started _ _ Hs) as Hss.
    pose proof (addr_given _ _ Hs) as Hag.
    pose proof (one_open _ _ Hs) as Hon.
    pose proof (exits _ _ Hs) as Hex. unfold exit_ok in Hex.
    unfold addr in Hag. change main.apiServerAddrFlagName with "addr" in Hag.
    rewrite Haddr in Hag.
    assert (Hst : started (pm a) = false) by (destruct (pm a); auto; discriminate).
    split; [now apply Hbs|]. split; [now apply Hss|].
    intros code Hcode. simpl in Hcode. rewrite Hcode in Hex.
    destruct Hex as [(_ & d & Hd & _)|(-> & [(e1 & He1 & Hl)|(e1 & Hf & _)])].
    + rewrite Hd in Hst. discriminate.
    + destruct (pm a) eqn:Hpm; try discriminate.
      * right. exists e. rewrite Hon. now left.
      * left. inversion He1; subst. auto.
    + rewrite Hf in Hst. discriminate.
Qed.
End Flags.

Lemma after_reachable (c : cli.Context) (ls : list Label) :
  possible c ls = true -> reachable (main.main Args c) (after c ls).
Proof.
  intros H. exists ls. unfold after, possible in *.
  destruct (run ls (init (main.main Args c))); [reflexivity|discriminate].
Qed.

Lemma stopper_closed_once_witness :
  reachable (main.main Args sample_flags) (after sample_flags run_signalled) /\
  stop_signals (trace (after sample_flags run_signalled))
    = [os.SIGINT; os.SIGTERM; os.SIGINT] /\
  closes (trace (after sample_flags run_signalled)) = [stopper] /\
  (length (closes (trace (after sample_flags run_signalled))) <= 1)%nat.
Proof.
  assert (H : reachable (main.main Args sample_flags) (after sample_flags run_signalled)).
  { apply after_reachable. vm_compute. reflexivity. }
  split; [exact H|]. split; [vm_compute; reflexivity|].
  split; [vm_compute; reflexivity|].
  exact (proj1 (stopper_closed_once sample_flags _ H)).
Defined.

Lemma Start_waits_then_shuts_down_witness :
  reachable (main.main Args sample_flags) (after sample_flags run_shutdown) /\
  In (Some (30 * time.Second), 5 * time.Second, None)
     (shutdowns (trace (after sample_flags run_shutdown))) /\
  is_closed (chans (after sample_flags run_shutdown)) stopper = true /\
  threads (after sample_flags run_shutdown) !! 0%nat = Some (main_tail None).
Proof.
  assert (H : reachable (main.main Args sample_flags) (after sample_flags run_shutdown)).
  { apply after_reachable. vm_compute. reflexivity. }
  assert (Hin : In (Some (30 * time.Second), 5 * time.Second, None)
                   (shutdowns (trace (after sample_flags run_shutdown)))).
  { vm_compute. left. reflexivity. }
  split; [exact H|]. split; [exact Hin|].
  destruct (Start_waits_then_shuts_down sample_flags _ H) as (_ & _ & Hsh & _ & _).
  destruct (Hsh _ _ _ Hin) as (Hc & _ & _ & Ht).
  split; [exact Hc|exact Ht].
Defined.

Lemma listen_failure_is_fatal_witness :
  reachable (main.main Args sample_flags) (after sample_flags run_addr_in_use) /\
  In (errorString "listen tcp :3000: bind: address already in use")
     (listen_errors (trace (after sample_flags run_addr_in_use))) /\
  status (after sample_flags run_addr_in_use) = Running /\
  exists cfg',
    step (Sched 2 Silent) (after sample_flags run_addr_in_use) = Some cfg' /\
    status cfg' = Exited 1.
Proof.
  assert (H : reachable (main.main Args sample_flags)
                (after sample_flags run_addr_in_use)).
  { apply after_reachable. vm_compute. reflexivity. }
  assert (Hin : In (errorString "listen tcp :3000: bind: address already in use")
                   (listen_errors (trace (after sample_flags run_addr_in_use)))).
  { vm_compute. left. reflexivity. }
  assert (Hrun : status (after sample_flags run_addr_in_use) = Running).
  { vm_compute. reflexivity. }
  split; [exact H|]. split; [exact Hin|]. split; [exact Hrun|].
  destruct (listen_failure_is_fatal sample_flags _ _ H Hin) as (_ & _ & Hstep & _).
  destruct (Hstep Hrun Silent) as (cfg' & Hs & Hst & _).
  exists cfg'. split; [exact Hs|exact Hst].
Defined.

(** C8 as the specification states it fails: with the database URL
    [not a url], which [sql.Open] takes as it takes any other,
    [NewStorage] returns a storage and the process comes up listening,
    with nothing fatal in its log. *)
Lemma bad_database_URL_is_not_fatal :
  with_database_sql (storage.NewStorage "not a url")
  = mret (Ok {| storage.conn := {| sql.driverName := "postgres";
                                   sql.dataSourceName := "not a url" |} |}) /\
  possible bad_url_flags run_listening = true /\
  opens (trace (after bad_url_flags run_listening)) = [("not a url", None)] /\
  server (after bad_url_flags run_listening) = Listening /\
  status (after bad_url_flags run_listening) = Running /\
  log (after bad_url_flags run_listening)
  = [info [("addr", logrus.StringValue ":3000")] "starting server"].
Proof.
  split; [reflexivity|]. split; [vm_compute; reflexivity|].
  split; [vm_compute; reflexivity|]. split; [vm_compute; reflexivity|].
  split; vm_compute; reflexivity.
Qed.

Lemma NewStorage_fails_only_with_sql_Open_witness :
  reachable (main.main Args sample_flags) (after sample_flags run_listening) /\
  In ("postgres://local-dev@db/api?sslmode=disable", None)
     (opens (trace (after sample_flags run_listening))) /\
  cli.String sample_flags "addr" <> EmptyString /\
  opens (trace (after sample_flags run_listening))
  = [("postgres://local-dev@db/api?sslmode=disable", None)] /\
  exists cfg1,
    run run_listening (init (main.main Args sample_flags)) = Some cfg1 /\
    server cfg1 = Listening.
Proof.
  assert (H : reachable (main.main Args sample_flags) (after sample_flags run_listening)).
  { apply after_reachable. vm_compute. reflexivity. }
  assert (Hin : In ("postgres://local-dev@db/api?sslmode=disable", None)
                   (opens (trace (after sample_flags run_listening)))).
  { vm_compute. left. reflexivity. }
  assert (Ha : cli.String sample_flags "addr" <> EmptyString).
  { vm_compute. discriminate. }
  split; [exact H|]. split; [exact Hin|]. split; [exact Ha|].
  destruct (NewStorage_fails_only_with_sql_Open sample_flags _ _ _ H Hin)
    as (_ & _ & Ho & _ & Hup).
  split; [exact Ho|].
  destruct (Hup Ha) as (cfg1 & Hrun & _ & Hl & _).
  exists cfg1. split; [exact Hrun|exact Hl].
Defined.

Lemma NewAPIServer_needs_an_address_witness :
  ":3000" <> EmptyString /\
  apiserver.NewAPIServer ":3000" sample_storage = Ok sample_api /\
  cli.String blank_flags "addr" = EmptyString /\
  reachable (main.main Args blank_flags)
    (after blank_flags run_to_wait) /\
  status (after blank_flags run_to_wait) = Exited 1 /\
  binds (trace (after blank_flags run_to_wait)) = [].
Proof.
  destruct (NewAPIServer_needs_an_address blank_flags sample_storage)
    as (_ & Hok & Hblank).
  assert (H : reachable (main.main Args blank_flags)
                (after blank_flags run_to_wait)).
  { apply after_reachable. vm_compute. reflexivity. }
  split; [discriminate|]. split; [apply (Hok ":3000"); discriminate|].
  split; [reflexivity|]. split; [exact H|]. split; [vm_compute; reflexivity|].
  exact (proj1 (Hblank _ eq_refl H)).
Defined.

End process_facts.

(** ** The handlers on every request *)

(** The writes of listItems on a connection that takes none. *)
Lemma listItems_range_broken items st e :
  http.broken (w st) = Some e ->
  http.finishRequest (w (snd (apiserver.listItems_range items st)))
  = http.finishRequest (w st) /\
  db (snd (apiserver.listItems_range items st)) = db st /\
  logs (snd (apiserver.listItems_range items st)) = logs st.
Proof.
  revert st. induction items as [|item items IH]; intros [b r l] Hb; simpl in *.
  - auto.
  - unfold mbind, M_bind, on_w, http.Write; simpl.
    destruct r as [h c t br]; simpl in *; subst br.
    unfold http.WriteHeader; simpl.
    destruct h; simpl.
    + apply (IH {| db := b; w := _; logs := l |}). reflexivity.
    + destruct (IH {| db := b;
                      w := {| http.wroteHeader := true; http.status := http.StatusOK;
                              http.body := t; http.broken := Some e |};
                      logs := l |} eq_refl) as (H1 & H2 & H3).
      simpl in *. rewrite H1, H2, H3. auto.
Qed.

(** Serving a request on an [Endpoint] route, in terms of its handler. *)
Lemma serve_Endpoint (h : apiserver.EndpointFunc) broken req st :
  apiserver.serve (apiserver.Endpoint_ServeHTTP {| apiserver.handler := h |})
    broken req st
  = let (r, st1) := h req {| db := db st; w := http.newResponse broken;
                             logs := logs st |} in
    let st2 :=
      match r with
      | None => st1
      | Some err =>
          {| db := db st1;
             w := snd (http.Write "internal server error"
                         (http.WriteHeader http.StatusInternalServerError (w st1)));
             logs := logs st1 ++ [request_error err] |}
      end in
    (http.finishRequest (w st2),
     {| db := db st2; w := http.finishRequest (w st2); logs := logs st2 |}).
Proof.
  unfold apiserver.serve.
  destruct (h req _) as [r st1] eqn:H.
  rewrite (Endpoint_ServeHTTP_run h req _ r st1 H). reflexivity.
Qed.

Lemma serve_POST_items api broken req st :
  http.Method req = "POST" -> http.Path req = "/items" ->
  apiserver.serve (the_router api) broken req st
  = apiserver.serve
      (apiserver.Endpoint_ServeHTTP {| apiserver.handler := apiserver.createItem api |})
      broken req st.
Proof.
  intros Hm Hp. unfold apiserver.serve. now rewrite (route_POST_items _ _ Hm Hp).
Qed.

Lemma serve_GET_items api broken req st :
  http.Method req = "GET" -> http.Path req = "/items" ->
  apiserver.serve (the_router api) broken req st
  = apiserver.serve
      (apiserver.Endpoint_ServeHTTP {| apiserver.handler := apiserver.listItems api |})
      broken req st.
Proof.
  intros Hm Hp. unfold apiserver.serve. now rewrite (route_GET_items _ _ Hm Hp).
Qed.

(** createItem in terms of the statement it sends. *)
Lemma createItem_fresh api req st broken :
  apiserver.createItem api req {| db := db st; w := http.newResponse broken;
                                  logs := logs st |}
  = let (r, st1) := storage.CreateItem (apiserver.storage api) (http.Context req)
                      {| storage.Name_ := http.PostFormValue req "name" |} st in
    match r with
    | Err err => (Some err, {| db := db st1; w := http.newResponse broken;
                               logs := logs st |})
    | Ok item =>
        let wr := http.Write ("New Item ID: " +:+ storage.ID item)
                    (http.WriteHeader http.StatusCreated (http.newResponse broken)) in
        (snd (fst wr), {| db := db st1; w := snd wr; logs := logs st |})
    end.
Proof.
  rewrite createItem_run, CreateItem_frame.
  destruct (storage.CreateItem _ _ _ st) as [[item|err] st1]; reflexivity.
Qed.

(** listItems in terms of the query it sends. *)
Lemma listItems_fresh api req st broken :
  apiserver.listItems api req {| db := db st; w := http.newResponse broken;
                                 logs := logs st |}
  = let (r, st1) := storage.ListItems (apiserver.storage api) (http.Context req) st in
    match r with
    | Err err => (Some err, {| db := db st1; w := http.newResponse broken;
                               logs := logs st |})
    | Ok items =>
        (None, snd (apiserver.listItems_range items
                      {| db := db st1; w := http.newResponse broken; logs := logs st |}))
    end.
Proof.
  rewrite listItems_run, ListItems_frame.
  destruct (storage.ListItems _ _ st) as [[items|err] st1]; reflexivity.
Qed.

(** X1: on a sound round trip and a sound connection, a request GET /items
    whose context is live is answered 200 with one line per row of the
    table, id and name, in the order of the table, and nothing else (an
    empty body on an empty table); the round trip is counted, no row is
    changed and nothing is logged. *)
Theorem GET_items_lists_every_row (api : apiserver.APIServer) (req : http.Request)
    (st : World) :
  http.Method req = "GET" ->
  http.Path req = "/items" ->
  context.err (http.Context req) = None ->
  sql.fault (sql.trips (db st) (sql.served (db st))) = None ->
  let resp := answered 200 (listing (map to_item (sql.items (db st)))) None in
  apiserver.serve (the_router api) None req st
  = (resp, {| db := sql.tick (db st); w := resp; logs := logs st |}).
Proof.
  intros Hm Hp Hc Hf. unfold apiserver.serve.
  rewrite (route_GET_items _ _ Hm Hp).
  erewrite Endpoint_ServeHTTP_run.
  2:{ rewrite listItems_run, ListItems_sound by (simpl; assumption). reflexivity. }
  simpl. destruct (map to_item (sql.items (db st))) as [|x items]; [reflexivity|].
  simpl. unfold mbind, M_bind, on_w; simpl.
  rewrite listItems_range_sound by reflexivity. reflexivity.
Qed.

Lemma GET_items_lists_every_row_witness :
  http.Method sample_GET = "GET" /\
  http.Path sample_GET = "/items" /\
  fst (apiserver.serve (the_router sample_api) None sample_GET sample_world)
  = answered 200 EmptyString None /\
  http.body (fst (apiserver.serve (the_router sample_api) None sample_GET
                    (stocked_world None)))
  = "ab73c9cd-fd98-4d3c-bbb2-25e232fb0277 - my-item" +:+ String "010"%char
      ("0c1e5a52-7d0b-4b8e-9d55-3f2b6a6f1c11 - widget" +:+ String "010"%char EmptyString).
Proof.
  split; [reflexivity|]. split; [reflexivity|]. split.
  - rewrite (GET_items_lists_every_row sample_api sample_GET sample_world);
      reflexivity.
  - rewrite (GET_items_lists_every_row sample_api sample_GET (stocked_world None));
      reflexivity.
Defined.

(** X3: ListItems never asks [rows.Err()]: when the result set breaks off
    after [n] rows, it returns the items of these rows and no error, and
    GET /items answers 200 with just their lines, logging nothing. *)
Theorem ListItems_ignores_broken_iteration (api : apiserver.APIServer)
    (req : http.Request) (st : World) (n : nat) (e : error) :
  http.Method req = "GET" ->
  http.Path req = "/items" ->
  context.err (http.Context req) = None ->
  sql.fault (sql.trips (db st) (sql.served (db st))) = Some (sql.IterFault n e) ->
  storage.ListItems (apiserver.storage api) (http.Context req) st
  = (Ok (map to_item (take n (sql.items (db st)))), with_db (sql.tick (db st)) st) /\
  let resp := answered 200 (listing (map to_item (take n (sql.items (db st))))) None in
  apiserver.serve (the_router api) None req st
  = (resp, {| db := sql.tick (db st); w := resp; logs := logs st |}).
Proof.
  intros Hm Hp Hc Hf.
  assert (HL : forall st', db st' = db st ->
            storage.ListItems (apiserver.storage api) (http.Context req) st'
            = (Ok (map to_item (take n (sql.items (db st)))),
               with_db (sql.tick (db st)) st')).
  { intros st' Hdb. rewrite ListItems_run, Hdb.
    unfold sql.QueryContext. rewrite Hc, Hf.
    unfold sql.execute; simpl. rewrite firstn_map, scan_cells_ok.
    unfold with_db. destruct (db st); reflexivity. }
  split; [now apply HL|].
  unfold apiserver.serve. rewrite (route_GET_items _ _ Hm Hp).
  erewrite Endpoint_ServeHTTP_run.
  2:{ rewrite listItems_run, HL by reflexivity. reflexivity. }
  simpl. destruct (map to_item (take n (sql.items (db st)))) as [|x items];
    [reflexivity|].
  simpl. unfold mbind, M_bind, on_w; simpl.
  rewrite listItems_range_sound by reflexivity. reflexivity.
Qed.

Lemma ListItems_ignores_broken_iteration_witness :
  sql.fault (sql.trips (stocked_backend (Some (sql.IterFault 1 (errorString "EOF")))) 0)
  = Some (sql.IterFault 1 (errorString "EOF")) /\
  fst (apiserver.serve (the_router sample_api) None sample_GET
         (stocked_world (Some (sql.IterFault 1 (errorString "EOF")))))
  = answered 200 ("ab73c9cd-fd98-4d3c-bbb2-25e232fb0277 - my-item"
                  +:+ String "010"%char EmptyString) None.
Proof.
  split; [reflexivity|].
  destruct (ListItems_ignores_broken_iteration sample_api sample_GET
              (stocked_world (Some (sql.IterFault 1 (errorString "EOF"))))
              1 (errorString "EOF") eq_refl eq_refl eq_refl eq_refl) as [_ H].
  rewrite H. reflexivity.
Defined.

Lemma scan_cells_first_bad ts e rest acc :
  scan_cells (map Ok ts ++ Err e :: rest) acc
  = Err (fmt.Errorf "could not scan item: " e).
Proof.
  revert acc. induction ts as [|t ts IH]; intros acc; simpl; [reflexivity|apply IH].
Qed.

(** X4: the first row of the result that does not scan fails the whole
    listing: ListItems returns the error of this row wrapped in
    [could not scan item: ] and none of the items it had collected, and
    the result set is closed. *)
Theorem ListItems_fails_on_first_bad_row (s : storage.Storage) (ctx : context.Context)
    (st : World) (rows : sql.Rows) (b : sql.Backend) (ts : list sql.Tuple)
    (e : error) (rest : list (Result sql.Tuple)) :
  sql.QueryContext (storage.conn s) ctx "SELECT id, name FROM items" [] (db st)
    = (Ok rows, b) ->
  sql.pending rows = map Ok ts ++ Err e :: rest ->
  storage.ListItems s ctx st
  = (Err (fmt.Errorf "could not scan item: " e), with_db (sql.close_cursor b) st).
Proof.
  intros Hq Hp. rewrite ListItems_run, Hq, Hp, scan_cells_first_bad. reflexivity.
Qed.

Lemma ListItems_fails_on_first_bad_row_witness :
  exists rows b,
    sql.QueryContext (storage.conn sample_storage) context.Background
      "SELECT id, name FROM items" []
      (stocked_backend (Some (sql.ScanFault 1 (errorString "unsupported Scan"))))
    = (Ok rows, b) /\
    sql.pending rows
    = map Ok (take 1 two_rows) ++ Err (errorString "unsupported Scan") :: [] /\
    fst (storage.ListItems sample_storage context.Background
           (stocked_world (Some (sql.ScanFault 1 (errorString "unsupported Scan")))))
    = Err (fmt.Errorf "could not scan item: " (errorString "unsupported Scan")).
Proof.
  eexists _, _. split; [vm_compute; reflexivity|]. split; [reflexivity|].
  erewrite (ListItems_fails_on_first_bad_row sample_storage context.Background
              (stocked_world (Some (sql.ScanFault 1 (errorString "unsupported Scan"))))
              _ _ (take 1 two_rows) (errorString "unsupported Scan") []);
    [reflexivity | vm_compute; reflexivity | reflexivity].
Defined.

(** X5: a request POST /items whose body has no field [name] is not
    rejected by the handler: the INSERT is sent with the empty name.  It
    is answered 201 and a row with the empty name is stored when the
    database takes that name, and 500 with a logged error and no row
    otherwise. *)
Theorem POST_items_without_name (api : apiserver.APIServer) (req : http.Request)
    (st : World) :
  http.Method req = "POST" ->
  http.Path req = "/items" ->
  http.PostForm req !! "name" = None ->
  context.err (http.Context req) = None ->
  sql.fault (sql.trips (db st) (sql.served (db st))) = None ->
  let id := sql.gen_random_uuid (sql.random (sql.trips (db st) (sql.served (db st)))) in
  let out := apiserver.serve (the_router api) None req st in
  (sql.accepts (db st) EmptyString = true ->
   fst out = answered 201 ("New Item ID: " +:+ id) None /\
   sql.items (db (snd out))
   = sql.items (db st) ++ [{| sql.id := id; sql.name := EmptyString |}] /\
   logs (snd out) = logs st) /\
  (sql.accepts (db st) EmptyString = false ->
   fst out = answered 500 "internal server error" None /\
   sql.items (db (snd out)) = sql.items (db st) /\
   exists err, logs (snd out) = logs st ++ [request_error err]).
Proof.
  intros Hm Hp Hn Hc Hf id out.
  assert (Hv : http.PostFormValue req "name" = EmptyString).
  { unfold http.PostFormValue. now rewrite Hn. }
  subst out. rewrite (serve_POST_items _ _ _ _ Hm Hp), serve_Endpoint, createItem_fresh, Hv.
  split; intros Hacc.
  - rewrite CreateItem_sound by assumption. simpl. auto.
  - rewrite CreateItem_run. unfold sql.QueryRowContext, sql.QueryContext.
    rewrite Hc, Hf. unfold sql.execute; simpl. rewrite Hacc. simpl. eauto.
Qed.

Lemma POST_items_without_name_witness :
  http.PostForm nameless_POST !! "name" = None /\
  http.status (fst (apiserver.serve (the_router sample_api) None nameless_POST
                      sample_world)) = 201 /\
  sql.items (db (snd (apiserver.serve (the_router sample_api) None nameless_POST
                        sample_world)))
  = [{| sql.id := "00000000-0000-4000-9122-10f47de98115"; sql.name := EmptyString |}] /\
  fst (apiserver.serve (the_router sample_api) None nameless_POST strict_world)
  = answered 500 "internal server error" None.
Proof.
  destruct (POST_items_without_name sample_api nameless_POST sample_world
              eq_refl eq_refl eq_refl eq_refl eq_refl) as [Hyes _].
  destruct (POST_items_without_name sample_api nameless_POST strict_world
              eq_refl eq_refl eq_refl eq_refl eq_refl) as [_ Hno].
  destruct (Hyes eq_refl) as (H1 & H2 & _).
  destruct (Hno eq_refl) as (H3 & _).
  split; [reflexivity|]. split; [rewrite H1; reflexivity|].
  split; [rewrite H2; reflexivity|exact H3].
Defined.

(** X6: a request on /items whose context is already done is answered 500
    without a round trip to the database: the database is as before, and
    the context's error is logged, as it is for POST and wrapped in
    [could not retrieve items: ] for GET. *)
Theorem cancelled_request_reaches_no_database (api : apiserver.APIServer)
    (req : http.Request) (st : World) (e : error) :
  http.Path req = "/items" ->
  context.err (http.Context req) = Some e ->
  (http.Method req = "POST" ->
   apiserver.serve (the_router api) None req st
   = (answered 500 "internal server error" None,
      {| db := db st; w := answered 500 "internal server error" None;
         logs := logs st ++ [request_error e] |})) /\
  (http.Method req = "GET" ->
   apiserver.serve (the_router api) None req st
   = (answered 500 "internal server error" None,
      {| db := db st; w := answered 500 "internal server error" None;
         logs := logs st
                 ++ [request_error (fmt.Errorf "could not retrieve items: " e)] |})).
Proof.
  intros Hp Hc. split; intros Hm.
  - rewrite (serve_POST_items _ _ _ _ Hm Hp), serve_Endpoint, createItem_fresh.
    rewrite CreateItem_run. unfold sql.QueryRowContext, sql.QueryContext.
    rewrite Hc. simpl. destruct st; reflexivity.
  - rewrite (serve_GET_items _ _ _ _ Hm Hp), serve_Endpoint, listItems_fresh.
    rewrite ListItems_run. unfold sql.QueryContext.
    rewrite Hc. simpl. destruct st; reflexivity.
Qed.

Lemma cancelled_request_reaches_no_database_witness :
  context.err (http.Context cancelled_POST) = Some Canceled /\
  apiserver.serve (the_router sample_api) None cancelled_POST sample_world
  = (answered 500 "internal server error" None,
     {| db := sample_backend; w := answered 500 "internal server error" None;
        logs := [request_error Canceled] |}) /\
  sql.served (db (snd (apiserver.serve (the_router sample_api) None cancelled_GET
                         sample_world))) = 0%nat.
Proof.
  destruct (cancelled_request_reaches_no_database sample_api cancelled_POST
              sample_world Canceled eq_refl eq_refl) as [HP _].
  destruct (cancelled_request_reaches_no_database sample_api cancelled_GET
              sample_world Canceled eq_refl eq_refl) as [_ HG].
  split; [reflexivity|]. split; [exact (HP eq_refl)|].
  rewrite (HG eq_refl). reflexivity.
Defined.

(** X7: when the INSERT statement fails with an error that is not
    [driver.ErrBadConn] (on that one database/sql would send the statement
    again), POST /items is answered 500, no row is stored, the statement
    has been sent once and its error is logged as it is (CreateItem does
    not wrap it). *)
Theorem POST_items_failed_statement (api : apiserver.APIServer) (req : http.Request)
    (st : World) (e : error) :
  http.Method req = "POST" ->
  http.Path req = "/items" ->
  context.err (http.Context req) = None ->
  sql.fault (sql.trips (db st) (sql.served (db st))) = Some (sql.StmtFault e) ->
  errors_Is e ErrBadConn = false ->
  let out := apiserver.serve (the_router api) None req st in
  fst out = answered 500 "internal server error" None /\
  sql.items (db (snd out)) = sql.items (db st) /\
  sql.served (db (snd out)) = S (sql.served (db st)) /\
  logs (snd out) = logs st ++ [request_error e].
Proof.
  intros Hm Hp Hc Hf _ out. subst out.
  rewrite (serve_POST_items _ _ _ _ Hm Hp), serve_Endpoint, createItem_fresh.
  rewrite CreateItem_run. unfold sql.QueryRowContext, sql.QueryContext.
  rewrite Hc, Hf. simpl. auto.
Qed.

Lemma POST_items_failed_statement_witness :
  sql.fault (sql.trips (db failing_world) (sql.served (db failing_world)))
  = Some (sql.StmtFault (errorString "connection refused")) /\
  errors_Is (errorString "connection refused") ErrBadConn = false /\
  logs (snd (apiserver.serve (the_router sample_api) None sample_POST failing_world))
  = [request_error (errorString "connection refused")].
Proof.
  split; [reflexivity|]. split; [reflexivity|].
  destruct (POST_items_failed_statement sample_api sample_POST failing_world
              (errorString "connection refused") eq_refl eq_refl eq_refl eq_refl
              eq_refl)
    as (_ & _ & _ & H).
  exact H.
Defined.

(** X8: when the client's connection takes no writes, a successful POST
    /items still stores the row; the status 201 was set before the write,
    the error of the write is what createItem returns, so it is logged,
    and the 500 of [Endpoint.ServeHTTP] comes too late to change the
    status. *)
Theorem POST_items_on_broken_connection (api : apiserver.APIServer)
    (req : http.Request) (st : World) (e : error) :
  http.Method req = "POST" ->
  http.Path req = "/items" ->
  context.err (http.Context req) = None ->
  sql.accepts (db st) (http.PostFormValue req "name") = true ->
  sql.fault (sql.trips (db st) (sql.served (db st))) = None ->
  let id := sql.gen_random_uuid (sql.random (sql.trips (db st) (sql.served (db st)))) in
  let out := apiserver.serve (the_router api) (Some e) req st in
  fst out = answered 201 EmptyString (Some e) /\
  sql.items (db (snd out))
  = sql.items (db st) ++ [{| sql.id := id; sql.name := http.PostFormValue req "name" |}] /\
  logs (snd out) = logs st ++ [request_error e].
Proof.
  intros Hm Hp Hc Hacc Hf id out. subst out.
  rewrite (serve_POST_items _ _ _ _ Hm Hp), serve_Endpoint, createItem_fresh.
  rewrite CreateItem_sound by assumption. simpl. auto.
Qed.

Lemma POST_items_on_broken_connection_witness :
  sql.accepts (db sample_world) (http.PostFormValue sample_POST "name") = true /\
  fst (apiserver.serve (the_router sample_api) (Some (errorString "broken pipe"))
         sample_POST sample_world)
  = answered 201 EmptyString (Some (errorString "broken pipe")) /\
  length (sql.items (db (snd (apiserver.serve (the_router sample_api)
                                (Some (errorString "broken pipe"))
                                sample_POST sample_world)))) = 1%nat.
Proof.
  destruct (POST_items_on_broken_connection sample_api sample_POST sample_world
              (errorString "broken pipe") eq_refl eq_refl eq_refl eq_refl eq_refl)
    as (H1 & H2 & _).
  split; [reflexivity|]. split; [exact H1|]. rewrite H2. reflexivity.
Defined.

(** X9: listItems does not look at the results of its writes: on a
    connection that takes no writes a listing that succeeded is answered
    200 with an empty body and nothing is logged. *)
Theorem GET_items_on_broken_connection (api : apiserver.APIServer)
    (req : http.Request) (st st1 : World) (items : list storage.Item) (e : error) :
  http.Method req = "GET" ->
  http.Path req = "/items" ->
  storage.ListItems (apiserver.storage api) (http.Context req) st = (Ok items, st1) ->
  apiserver.serve (the_router api) (Some e) req st
  = (answered 200 EmptyString (Some e),
     {| db := db st1; w := answered 200 EmptyString (Some e); logs := logs st |}).
Proof.
  intros Hm Hp Hl.
  rewrite (serve_GET_items _ _ _ _ Hm Hp), serve_Endpoint, listItems_fresh, Hl.
  destruct (listItems_range_broken items
              {| db := db st1; w := http.newResponse (Some e); logs := logs st |} e
              eq_refl) as (Hw & Hd & Hg).
  cbn zeta. cbn match. rewrite Hw, Hd, Hg. reflexivity.
Qed.

Lemma GET_items_on_broken_connection_witness :
  fst (storage.ListItems sample_storage context.Background (stocked_world None))
  = Ok (map to_item two_rows) /\
  fst (apiserver.serve (the_router sample_api) (Some (errorString "broken pipe"))
         sample_GET (stocked_world None))
  = answered 200 EmptyString (Some (errorString "broken pipe")) /\
  logs (snd (apiserver.serve (the_router sample_api) (Some (errorString "broken pipe"))
               sample_GET (stocked_world None))) = [].
Proof.
  split; [vm_compute; reflexivity|].
  rewrite (GET_items_on_broken_connection sample_api sample_GET (stocked_world None)
             (snd (storage.ListItems sample_storage context.Background
                     (stocked_world None)))
             (map to_item two_rows) (errorString "broken pipe") eq_refl eq_refl);
    [split; reflexivity | vm_compute; reflexivity].
Defined.

(** X10: only GET and POST on /items reach the storage.  Every other
    request leaves the database and the log as they are; the path / is
    answered 200 [Hello World] whatever the method, and another method on
    /items is answered 405. *)
Theorem other_requests_leave_the_storage_alone (api : apiserver.APIServer)
    (broken : option error) (req : http.Request) (st : World) :
  http.Path req <> "/items"
  \/ (http.Method req <> "GET" /\ http.Method req <> "POST") ->
  let out := apiserver.serve (the_router api) broken req st in
  db (snd out) = db st /\
  logs (snd out) = logs st /\
  (http.Path req = "/" -> broken = None -> fst out = answered 200 "Hello World" None) /\
  (http.Path req = "/items" -> http.status (fst out) = 405).
Proof.
  intros H out. subst out.
  unfold apiserver.serve, the_router, apiserver.Router_ServeHTTP, apiserver.Match,
    apiserver.router, apiserver.NewRouter, apiserver.HandleFunc,
    apiserver.Methods_Path_Handler, apiserver.path_matches, apiserver.method_matches.
  cbn -[String.eqb String.append].
  destruct (String.eqb_spec "/" (http.Path req)) as [E1|E1].
  - (* the route "/" *)
    cbn -[String.eqb String.append].
    unfold apiserver.defaultRoute, mbind, M_bind, on_w, http.Write, http.WriteHeader.
    destruct broken; cbn -[String.eqb String.append].
    all: split; [reflexivity|]; split; [reflexivity|].
    all: split; [intros _ Hb; try discriminate Hb; reflexivity|].
    all: intros; congruence.
  - destruct (String.eqb_spec "/items" (http.Path req)) as [E2|E2].
    + destruct H as [H|[Hg Hpo]]; [congruence|].
      destruct (String.eqb_spec (http.Method req) "POST") as [|_]; [contradiction|].
      destruct (String.eqb_spec (http.Method req) "GET") as [|_]; [contradiction|].
      cbn -[String.eqb String.append].
      unfold apiserver.text, mbind, M_bind, on_w, http.Write, http.WriteHeader.
      destruct broken; cbn -[String.eqb String.append].
      all: split; [reflexivity|]; split; [reflexivity|].
      all: split; [intros; congruence|reflexivity].
    + cbn -[String.eqb String.append].
      unfold apiserver.text, mbind, M_bind, on_w, http.Write, http.WriteHeader.
      destruct broken; cbn -[String.eqb String.append].
      all: split; [reflexivity|]; split; [reflexivity|].
      all: split; intros; congruence.
Qed.

Lemma other_requests_leave_the_storage_alone_witness :
  (http.Method sample_DELETE <> "GET" /\ http.Method sample_DELETE <> "POST") /\
  http.status (fst (apiserver.serve (the_router sample_api) None sample_DELETE
                      (stocked_world None))) = 405 /\
  db (snd (apiserver.serve (the_router sample_api) None sample_DELETE
             (stocked_world None))) = stocked_backend None.
Proof.
  assert (H : http.Method sample_DELETE <> "GET" /\ http.Method sample_DELETE <> "POST")
    by (split; discriminate).
  destruct (other_requests_leave_the_storage_alone sample_api None sample_DELETE
              (stocked_world None) (or_intror H)) as (Hd & _ & _ & H405).
  split; [exact H|]. split; [exact (H405 eq_refl)|exact Hd].
Defined.

(** The writes of listItems touch the response only, and never its status
    once the header is out. *)
Lemma listItems_range_frame items st :
  db (snd (apiserver.listItems_range items st)) = db st /\
  logs (snd (apiserver.listItems_range items st)) = logs st /\
  http.status (http.finishRequest (w (snd (apiserver.listItems_range items st))))
  = http.status (http.finishRequest (w st)).
Proof.
  revert st. induction items as [|item items IH]; intros [b r l]; simpl.
  - auto.
  - unfold mbind, M_bind, on_w, http.Write; simpl.
    destruct r as [h c t br]; unfold http.WriteHeader; simpl.
    destruct h, br; simpl;
      match goal with
      | |- context [apiserver.listItems_range items ?s] =>
          destruct (IH s) as (H1 & H2 & H3); rewrite H1, H2, H3; auto
      end.
Qed.

(** What one INSERT does to the database, whatever comes of it. *)
Lemma CreateItem_effect s ctx i st :
  let out := storage.CreateItem s ctx i st in
  sql.cursors (db (snd out)) = sql.cursors (db st) /\
  logs (snd out) = logs st /\
  w (snd out) = w st /\
  (sql.items (db (snd out)) = sql.items (db st) \/
   exists t, sql.items (db (snd out)) = sql.items (db st) ++ [t] /\
             sql.name t = storage.Name_ i).
Proof.
  intros out. subst out. rewrite CreateItem_run.
  unfold sql.QueryRowContext, sql.QueryContext.
  destruct (context.err ctx); [simpl; auto|].
  destruct (sql.fault _) as [[e|n e|n e]|]; try (simpl; auto; fail);
    unfold sql.execute; simpl;
    destruct (sql.accepts (db st) (storage.Name_ i)); simpl; try (auto; fail).
  all: unfold sql.Row_Scan, sql.Next, sql.result_set; simpl.
  - destruct n; simpl; (split; [reflexivity|]; split; [reflexivity|];
      split; [reflexivity|]; right; eexists; split; reflexivity).
  - destruct n; simpl; (split; [reflexivity|]; split; [reflexivity|];
      split; [reflexivity|]; right; eexists; split; reflexivity).
  - split; [reflexivity|]. split; [reflexivity|]. split; [reflexivity|].
    right; eexists; split; reflexivity.
Qed.

(** A SELECT changes no row. *)
Lemma ListItems_effect s ctx st :
  let out := storage.ListItems s ctx st in
  sql.cursors (db (snd out)) = sql.cursors (db st) /\
  sql.items (db (snd out)) = sql.items (db st) /\
  logs (snd out) = logs st /\
  w (snd out) = w st.
Proof.
  intros out. subst out. split; [apply ListItems_releases_cursor|].
  rewrite ListItems_run. unfold sql.QueryContext.
  destruct (context.err ctx); [simpl; auto|].
  destruct (sql.fault _) as [[e|n e|n e]|]; unfold sql.execute; simpl; auto.
Qed.

(** The routes that are no [Endpoint]. *)
Lemma serve_elsewhere api broken req st :
  http.Path req <> "/items"
  \/ (http.Method req <> "GET" /\ http.Method req <> "POST") ->
  let out := apiserver.serve (the_router api) broken req st in
  db (snd out) = db st /\ logs (snd out) = logs st /\
  (http.Path req = "/" -> http.status (fst out) = http.StatusOK) /\
  (http.Path req = "/items" -> http.status (fst out) = http.StatusMethodNotAllowed).
Proof.
  intros H out. subst out.
  unfold apiserver.serve, the_router, apiserver.Router_ServeHTTP, apiserver.Match,
    apiserver.router, apiserver.NewRouter, apiserver.HandleFunc,
    apiserver.Methods_Path_Handler, apiserver.path_matches, apiserver.method_matches.
  cbn -[String.eqb String.append].
  destruct (String.eqb_spec "/" (http.Path req)) as [E1|E1].
  - cbn -[String.eqb String.append].
    unfold apiserver.defaultRoute, mbind, M_bind, on_w, http.Write, http.WriteHeader.
    destruct broken; cbn -[String.eqb String.append].
    all: split; [reflexivity|]; split; [reflexivity|].
    all: split; [reflexivity|intros; congruence].
  - destruct (String.eqb_spec "/items" (http.Path req)) as [E2|E2].
    + destruct H as [H|[Hg Hpo]]; [congruence|].
      destruct (String.eqb_spec (http.Method req) "POST") as [|_]; [contradiction|].
      destruct (String.eqb_spec (http.Method req) "GET") as [|_]; [contradiction|].
      cbn -[String.eqb String.append].
      unfold apiserver.text, mbind, M_bind, on_w, http.Write, http.WriteHeader.
      destruct broken; cbn -[String.eqb String.append].
      all: split; [reflexivity|]; split; [reflexivity|].
      all: split; [intros; congruence|reflexivity].
    + cbn -[String.eqb String.append].
      unfold apiserver.text, mbind, M_bind, on_w, http.Write, http.WriteHeader.
      destruct broken; cbn -[String.eqb String.append].
      all: split; [reflexivity|]; split; [reflexivity|].
      all: split; intros; congruence.
Qed.

(** X11: on the paths of the routes, / and /items, every request is
    answered with one of the statuses 200, 201, 405 and 500, whatever the
    method, the state of the connection and the fault of the database
    (a statement failing with [driver.ErrBadConn] apart, which
    database/sql would send again): no result set stays open, at most one
    entry is logged and one is logged whenever the status is 500, and the
    table is unchanged or has one more row, with the name of a POST's
    field [name]. *)
Theorem requests_on_the_routes_are_answered (api : apiserver.APIServer)
    (broken : option error) (req : http.Request) (st : World) :
  http.Path req = "/" \/ http.Path req = "/items" ->
  (forall e, sql.fault (sql.trips (db st) (sql.served (db st)))
             = Some (sql.StmtFault e) ->
             errors_Is e ErrBadConn = false) ->
  let out := apiserver.serve (the_router api) broken req st in
  In (http.status (fst out)) statuses /\
  sql.cursors (db (snd out)) = sql.cursors (db st) /\
  (logs (snd out) = logs st \/
   exists e, logs (snd out) = logs st ++ [request_error e]) /\
  (http.status (fst out) = http.StatusInternalServerError ->
   exists e, logs (snd out) = logs st ++ [request_error e]) /\
  (sql.items (db (snd out)) = sql.items (db st) \/
   exists t, http.Method req = "POST" /\
             sql.items (db (snd out)) = sql.items (db st) ++ [t] /\
             sql.name t = http.PostFormValue req "name").
Proof.
  intros Hpath _ out. subst out.
  assert (Helse :
    http.Path req <> "/items"
    \/ (http.Method req <> "GET" /\ http.Method req <> "POST") ->
    let out := apiserver.serve (the_router api) broken req st in
    In (http.status (fst out)) statuses /\
    sql.cursors (db (snd out)) = sql.cursors (db st) /\
    (logs (snd out) = logs st \/
     exists e, logs (snd out) = logs st ++ [request_error e]) /\
    (http.status (fst out) = http.StatusInternalServerError ->
     exists e, logs (snd out) = logs st ++ [request_error e]) /\
    (sql.items (db (snd out)) = sql.items (db st) \/
     exists t, http.Method req = "POST" /\
               sql.items (db (snd out)) = sql.items (db st) ++ [t] /\
               sql.name t = http.PostFormValue req "name")).
  { intros H. destruct (serve_elsewhere api broken req st H) as (Hd & Hl & H200 & H405).
    assert (Hs : http.status (fst (apiserver.serve (the_router api) broken req st))
                 = http.StatusOK
                 \/ http.status (fst (apiserver.serve (the_router api) broken req st))
                    = http.StatusMethodNotAllowed).
    { destruct Hpath as [Hp|Hp]; [left; exact (H200 Hp)|right; exact (H405 Hp)]. }
    split; [destruct Hs as [Hs|Hs]; rewrite Hs; simpl; tauto|].
    split; [now rewrite Hd|]. split; [left; exact Hl|].
    split; [|left; now rewrite Hd].
    intros E. destruct Hs as [Hs|Hs]; rewrite Hs in E; discriminate. }
  destruct (String.eqb_spec (http.Path req) "/items") as [Hp|Hp]; [|exact (Helse (or_introl Hp))].
  destruct (String.eqb_spec (http.Method req) "POST") as [Hm|Hm].
  - rewrite (serve_POST_items _ _ _ _ Hm Hp), serve_Endpoint, createItem_fresh.
    destruct (CreateItem_effect (apiserver.storage api) (http.Context req)
                {| storage.Name_ := http.PostFormValue req "name" |} st)
      as (Hc & Hl & Hw & Hi).
    destruct (storage.CreateItem _ _ _ st) as [[item|err] st1]; simpl in *.
    + unfold http.Write, http.WriteHeader; simpl.
      destruct broken; simpl.
      * split; [right; left; reflexivity|]. split; [exact Hc|].
        split; [right; eauto|]. split; [eauto|].
        destruct Hi as [Hi|(t & Hi & Hn)]; [left; exact Hi|right; eauto].
      * split; [right; left; reflexivity|]. split; [exact Hc|].
        split; [left; reflexivity|]. split; [discriminate|].
        destruct Hi as [Hi|(t & Hi & Hn)]; [left; exact Hi|right; eauto].
    + unfold http.Write, http.WriteHeader; simpl.
      destruct broken; simpl.
      all: split; [do 3 right; left; reflexivity|]; split; [exact Hc|].
      all: split; [right; eauto|]; split; [eauto|].
      all: destruct Hi as [Hi|(t & Hi & Hn)]; [left; exact Hi|right; eauto].
  - destruct (String.eqb_spec (http.Method req) "GET") as [Hg|Hg];
      [|exact (Helse (or_intror (conj Hg Hm)))].
    rewrite (serve_GET_items _ _ _ _ Hg Hp), serve_Endpoint, listItems_fresh.
    destruct (ListItems_effect (apiserver.storage api) (http.Context req) st)
      as (Hc & Hi & Hl & Hw).
    destruct (storage.ListItems _ _ st) as [[items|err] st1]; simpl in *.
    + match goal with
      | |- context [apiserver.listItems_range items ?s] =>
          destruct (listItems_range_frame items s) as (H1 & H2 & H3)
      end.
      simpl in *. rewrite H1, H2, H3.
      split; [left; reflexivity|].
      split; [exact Hc|]. split; [left; reflexivity|].
      split; [discriminate|]. left; exact Hi.
    + unfold http.Write, http.WriteHeader; simpl.
      destruct broken; simpl.
      all: split; [do 3 right; left; reflexivity|]; split; [exact Hc|].
      all: split; [right; eauto|]; split; [eauto|]; left; exact Hi.
Qed.

Lemma requests_on_the_routes_are_answered_witness :
  (http.Path sample_POST = "/" \/ http.Path sample_POST = "/items") /\
  In (http.status (fst (apiserver.serve (the_router sample_api) None sample_POST
                          (stocked_world None)))) statuses /\
  sql.cursors (db (snd (apiserver.serve (the_router sample_api) None sample_POST
                          (stocked_world None)))) = 0%nat.
Proof.
  assert (Hp : http.Path sample_POST = "/" \/ http.Path sample_POST = "/items")
    by (right; reflexivity).
  assert (Hf : forall e,
             sql.fault (sql.trips (db (stocked_world None))
                          (sql.served (db (stocked_world None))))
             = Some (sql.StmtFault e) ->
             errors_Is e ErrBadConn = false)
    by (intros e H; discriminate H).
  destruct (requests_on_the_routes_are_answered sample_api None sample_POST
              (stocked_world None) Hp Hf) as (Hs & Hc & _).
  split; [exact Hp|]. split; [exact Hs|exact Hc].
Defined.

(** X12: CreateItem does not undo its INSERT: when the statement has stored
    the row and the scan of the returned row fails, POST /items is
    answered 500 and the error is logged, yet the row is in the table. *)
Theorem POST_items_keeps_the_row_when_Scan_fails (api : apiserver.APIServer)
    (req : http.Request) (st : World) (e : error) :
  http.Method req = "POST" ->
  http.Path req = "/items" ->
  context.err (http.Context req) = None ->
  sql.fault (sql.trips (db st) (sql.served (db st))) = Some (sql.ScanFault 0 e) ->
  sql.accepts (db st) (http.PostFormValue req "name") = true ->
  let id := sql.gen_random_uuid (sql.random (sql.trips (db st) (sql.served (db st)))) in
  let out := apiserver.serve (the_router api) None req st in
  fst out = answered 500 "internal server error" None /\
  sql.items (db (snd out))
  = sql.items (db st) ++ [{| sql.id := id; sql.name := http.PostFormValue req "name" |}] /\
  logs (snd out) = logs st ++ [request_error e].
Proof.
  intros Hm Hp Hc Hf Ha id out. subst out id.
  rewrite (serve_POST_items _ _ _ _ Hm Hp), serve_Endpoint, createItem_fresh.
  rewrite CreateItem_run. unfold sql.QueryRowContext, sql.QueryContext.
  rewrite Hc, Hf. unfold sql.execute; simpl. rewrite Ha. simpl. auto.
Qed.

Lemma POST_items_keeps_the_row_when_Scan_fails_witness :
  fst (apiserver.serve (the_router sample_api) None sample_POST
         (stocked_world (Some (sql.ScanFault 0 (errorString "unsupported Scan")))))
  = answered 500 "internal server error" None /\
  length (sql.items (db (snd (apiserver.serve (the_router sample_api) None sample_POST
         (stocked_world (Some (sql.ScanFault 0 (errorString "unsupported Scan"))))))))
  = 3%nat.
Proof.
  destruct (POST_items_keeps_the_row_when_Scan_fails sample_api sample_POST
              (stocked_world (Some (sql.ScanFault 0 (errorString "unsupported Scan"))))
              (errorString "unsupported Scan") eq_refl eq_refl eq_refl eq_refl eq_refl)
    as (H1 & H2 & _).
  split; [exact H1|]. rewrite H2. reflexivity.
Defined.

(** ** The life of the process *)

Module lifecycle_facts.
Import runtime process lifecycle process_facts.

Section Flags.
Variable c : cli.Context.

Lemma start_steady : steady c start.
Proof.
  split; simpl; auto with arith; [intros x r []|discriminate].
Qed.

Ltac premises :=
  repeat match goal with
         | H : ?x = ?x -> _ |- _ => specialize (H eq_refl)
         | H : false = true -> _ |- _ => clear H
         | H : true = false -> _ |- _ => clear H
         end.

Ltac facts Hs :=
  destruct Hs as [Hsw Hlw Hnp Hop Hsf Hco Hsg Hsc Hcs Hsh Hon Hbs Hss Hlf Hfe Hag Hex];
  unfold exit_ok in Hex; simpl in *; premises.

Ltac cases H :=
  repeat match type of H with
         | context [is_end ?x] => is_var x; destruct x; simpl in H; try discriminate
         | context [match ?x with _ => _ end] => destruct x eqn:?; try discriminate
         end.

Ltac steady_solve :=
  solve [ reflexivity | assumption | discriminate | congruence | lia
        | auto with arith | tauto
        | match goal with H : binds _ = [] |- _ => rewrite H; simpl; auto with arith end
        | intuition (eauto; congruence) ].

Ltac steady_field :=
  simpl in *; intros; subst;
  try steady_solve;
  try (repeat match goal with
              | |- context [match ?x with _ => _ end] => is_var x; destruct x
              end;
       simpl in *; steady_solve).

Lemma move_steady (l : Label) (a a' : Points) :
  sound c a -> steady c a -> move c l a = Some a' -> steady c a'.
Proof.
  intros Hs Ht Hm. destruct a as [m g h q sv lg tr st].
  unfold move in Hm; simpl in Hm. destruct st; try discriminate.
  destruct Ht as [Tss Tbo Tba Tub Tlb]; simpl in *.
  destruct l as [t ans|s].
  - destruct t as [|[|[|t]]]; [| | |discriminate].
    + unfold move_main in Hm; simpl in Hm.
      destruct m; facts Hs; cases Hm.
      all: inversion Hm; subst; clear Hm.
      all: split; steady_field.
    + destruct (forked m) eqn:Hf; [|discriminate].
      unfold move_signal in Hm; simpl in Hm.
      destruct m; try discriminate; facts Hs; cases Hm.
      all: inversion Hm; subst; clear Hm.
      all: split; steady_field.
    + destruct (started m) eqn:Hf; [|discriminate].
      unfold move_listen in Hm; simpl in Hm.
      destruct m; try discriminate; facts Hs; cases Hm.
      all: inversion Hm; subst; clear Hm.
      all: split; steady_field.
  - unfold move_deliver in Hm; simpl in Hm.
    destruct m; facts Hs; destruct s; simpl in Hm.
    all: inversion Hm; subst; clear Hm.
    all: split; steady_field.
Qed.

Lemma moves_steady (ls : list Label) (a a' : Points) :
  sound c a -> steady c a -> moves c ls a = Some a' -> sound c a' /\ steady c a'.
Proof.
  revert a. induction ls as [|l ls IH]; intros a Hs Ht H; simpl in H.
  - now inversion H; subst.
  - destruct (move c l a) as [a1|] eqn:Hm; [|discriminate].
    exact (IH a1 (move_sound c l a a1 Hs Hm) (move_steady l a a1 Hs Ht Hm) H).
Qed.

Lemma reachable_steady (cfg : Config) :
  reachable (main.main Args c) cfg ->
  exists a, cfg = state c a /\ sound c a /\ steady c a.
Proof.
  intros [ls Hr].
  rewrite <- (start_state c), (run_state c ls _ (start_sound c)) in Hr.
  destruct (moves c ls start) as [a|] eqn:Hm; [|discriminate].
  inversion Hr; subst. exists a. split; [reflexivity|].
  exact (moves_steady ls _ a (start_sound c) start_steady Hm).
Qed.

Lemma run_from_state (ls : list Label) (a : Points) (cfg' : Config) :
  sound c a -> steady c a -> run ls (state c a) = Some cfg' ->
  exists a', moves c ls a = Some a' /\ cfg' = state c a' /\ sound c a' /\ steady c a'.
Proof.
  intros Hs Ht Hr. rewrite (run_state c ls a Hs) in Hr.
  destruct (moves c ls a) as [a'|] eqn:Hm; [|discriminate].
  inversion Hr; subst. exists a'. split; [reflexivity|]. split; [reflexivity|].
  exact (moves_steady ls a a' Hs Ht Hm).
Qed.

(** The command [start], whatever the name of the program and the
    arguments after the command. *)
Lemma main_start (prog : string) (rest : list string) :
  main.main (prog :: "start" :: rest) c = main.main Args c.
Proof. reflexivity. Qed.


(** X14: a Shutdown that does not drain within the thirty seconds of
    [defaultStopTimeout] returns the context's deadline error, which
    [Start] and the action return to [main]: the process cannot exit with
    code 0, its next step of [main] logs the error as fatal and exits
    with code 1. *)
Theorem shutdown_timeout_is_fatal (cfg : Config) (t : option time.Duration)
    (d : time.Duration) (r : option error) :
  reachable (main.main Args c) cfg ->
  In (t, d, r) (shutdowns (trace cfg)) ->
  30 * time.Second < d ->
  r = Some DeadlineExceeded /\
  threads cfg !! 0%nat = Some (main_tail (Some DeadlineExceeded)) /\
  status cfg <> Exited 0 /\
  (status cfg = Running ->
   forall a, exists cfg',
     step (Sched 0 a) cfg = Some cfg' /\
     status cfg' = Exited 1 /\
     log cfg' = log cfg ++ [main_fatal DeadlineExceeded]).
Proof.
  intros Hr Hin Hd. destruct (reachable_steady cfg Hr) as (a & -> & Hs & Ht).
  change (trace (state c a)) with (p_trace a) in *.
  pose proof (one_shutdown _ _ Hs) as Hsh.
  pose proof (exits _ _ Hs) as Hex. unfold exit_ok in Hex.
  rewrite Hsh in Hin.
  destruct (pm a) eqn:Hpm; simpl in Hin; try contradiction.
  destruct Hin as [Hin|[]]. inversion Hin; subst t d0 r. clear Hin.
  assert (Hres : shutdown_result stop_ctx d = Some DeadlineExceeded).
  { unfold shutdown_result. simpl.
    destruct (d <=? apiserver.defaultStopTimeout) eqn:E; [|reflexivity].
    apply Z.leb_le in E. unfold apiserver.defaultStopTimeout in E. lia. }
  split; [exact Hres|].
  split; [simpl; rewrite Hpm; simpl; rewrite Hres; reflexivity|].
  split.
  { simpl. intros Hst. rewrite Hst in Hex.
    destruct Hex as [(_ & d' & Hd' & Hn)|(Hne & _)]; [|discriminate].
    inversion Hd'; subst d'. congruence. }
  intros Hrun ans. rewrite (step_state c _ _ Hs). unfold move. simpl in Hrun.
  rewrite Hrun. unfold move_main. rewrite Hpm, Hres. simpl.
  eexists. split; [reflexivity|]. split; reflexivity.
Qed.

(** X15: the action opens the storage before it looks at the address: a
    process started without an address has called [sql.Open] exactly once
    by the time it exits, and once the handle is open all that is left to
    [main] is to fail with [addr cannot be blank]. *)
Theorem storage_is_opened_before_the_address_is_checked (cfg : Config) :
  reachable (main.main Args c) cfg ->
  cli.String c "addr" = EmptyString ->
  (forall code, status cfg = Exited code ->
     exists r, opens (trace cfg) = [(cli.String c "database-url", r)]) /\
  (In (cli.String c "database-url", None) (opens (trace cfg)) ->
   threads cfg !! 0%nat = Some (main_tail (Some (errors.New "addr cannot be blank")))).
Proof.
  intros Hr Ha. destruct (reachable_steady cfg Hr) as (a & -> & Hs & Ht).
  change (trace (state c a)) with (p_trace a) in *.
  pose proof (exits _ _ Hs) as Hex. unfold exit_ok in Hex.
  pose proof (one_open _ _ Hs) as Hon.
  pose proof (addr_given _ _ Hs) as Hag.
  unfold addr in Hag. change main.apiServerAddrFlagName with "addr" in Hag.
  rewrite Ha in Hag. rewrite Hon.
  destruct a as [m g h q sv lg tr st]; simpl in *.
  split.
  - intros code ->.
    destruct Hex as [(_ & d & -> & _)|(_ & [(e & He & _)|(e & Hst & _)])].
    + discriminate.
    + destruct m; try discriminate; eauto.
    + destruct m; discriminate.
  - destruct m; simpl; intros Hin; try contradiction; try discriminate;
      try reflexivity.
    destruct Hin as [Hin|[]]. discriminate.
Qed.

(** X16: the running process takes every signal.  Once [signal.Notify] has
    registered the channel, a SIGINT or SIGTERM changes neither the
    goroutines nor the server nor the log and by itself closes and shuts
    down nothing (it is buffered or dropped); a SIGHUP, or any signal
    before the registration, kills the process. *)
Theorem signals_while_running (cfg : Config) (s : os.Signal) :
  reachable (main.main Args c) cfg ->
  status cfg = Running ->
  exists cfg',
    step (Deliver s) cfg = Some cfg' /\
    (notify cfg <> [] -> s <> os.SIGHUP ->
     status cfg' = Running /\ threads cfg' = threads cfg /\
     server cfg' = server cfg /\ log cfg' = log cfg /\
     closes (trace cfg') = closes (trace cfg) /\
     shutdowns (trace cfg') = shutdowns (trace cfg)) /\
    (notify cfg = [] \/ s = os.SIGHUP -> status cfg' = Killed s).
Proof.
  intros Hr Hrun. destruct (reachable_steady cfg Hr) as (a & -> & Hs & Ht).
  rewrite (step_state c _ _ Hs). unfold move.
  destruct a as [m g h q sv lg tr st]; simpl in *. subst st.
  eexists. split; [reflexivity|]. unfold move_deliver. simpl.
  destruct (notified m) eqn:Hn; simpl.
  - destruct s; simpl; split.
    + intros _ H. congruence.
    + reflexivity.
    + intros _ _. repeat split; reflexivity.
    + intros [H|H]; congruence.
    + intros _ _. repeat split; reflexivity.
    + intros [H|H]; congruence.
  - split; [intros H; contradiction|reflexivity].
Qed.

Lemma move_after_shutdown (l : Label) (a a' : Points) (d : time.Duration) :
  sound c a -> steady c a -> pm a = M_returned d -> move c l a = Some a' ->
  pm a' = M_returned d /\
  listen_errors (p_trace a') = listen_errors (p_trace a) /\
  shutdowns (p_trace a') = shutdowns (p_trace a).
Proof.
  intros Hs Ht Hp Hm. destruct a as [m g h q sv lg tr st].
  pose proof (shut_stays _ _ Ht) as Hsd.
  simpl in *. subst m. simpl in Hsd. subst sv.
  unfold move in Hm; simpl in Hm. destruct st; try discriminate.
  destruct l as [t ans|s].
  - destruct t as [|[|[|t]]]; [| | |discriminate].
    + unfold move_main in Hm; simpl in Hm.
      destruct (shutdown_result stop_ctx d); inversion Hm; subst; auto.
    + unfold move_signal in Hm; simpl in Hm.
      destruct g; try discriminate; destruct q; try discriminate;
        inversion Hm; subst; auto.
    + unfold move_listen in Hm; simpl in Hm.
      destruct h; try discriminate; inversion Hm; subst; auto.
  - unfold move_deliver in Hm; simpl in Hm.
    destruct s; inversion Hm; subst; auto.
Qed.

Lemma moves_after_shutdown (ls : list Label) (a a' : Points) (d : time.Duration) :
  sound c a -> steady c a -> pm a = M_returned d -> moves c ls a = Some a' ->
  pm a' = M_returned d /\
  listen_errors (p_trace a') = listen_errors (p_trace a) /\
  shutdowns (p_trace a') = shutdowns (p_trace a).
Proof.
  revert a. induction ls as [|l ls IH]; intros a Hs Ht Hd Hm; simpl in Hm.
  - inversion Hm; subst. auto.
  - destruct (move c l a) as [a1|] eqn:Hm1; [|discriminate].
    destruct (move_after_shutdown l a a1 d Hs Ht Hd Hm1) as (H1 & H2 & H3).
    destruct (IH a1 (move_sound c l a a1 Hs Hm1) (move_steady l a a1 Hs Ht Hm1)
                H1 Hm) as (H4 & H5 & H6).
    split; [exact H4|]. split; congruence.
Qed.

(** X17: a listener that has not failed by the time Shutdown is called
    does not fail the process afterwards.  [ListenAndServe] then returns
    [http.ErrServerClosed], which the goroutine of [Start] leaves out of
    its fatal log call: each of its steps leaves the process running and
    logs at most the entry [starting server].  From then on the process
    exits with code 1 only through the fatal entry of [main] for a
    Shutdown that ran out of time, and not at all when Shutdown has
    returned nil. *)
Theorem shutdown_does_not_fail_the_listener (prog : string) (rest : list string)
    (cfg cfg' : Config) (ls : list Label) :
  reachable (main.main (prog :: "start" :: rest) c) cfg ->
  shutdowns (trace cfg) <> [] ->
  listen_errors (trace cfg) = [] ->
  run ls cfg = Some cfg' ->
  (forall a cfg'', step (Sched 2 a) cfg' = Some cfg'' ->
     status cfg'' = Running /\
     (log cfg'' = log cfg' \/
      log cfg'' = log cfg' ++ [info [("addr", logrus.StringValue (cli.String c "addr"))]
                                 "starting server"])) /\
  (status cfg' = Exited 1 -> last (log cfg') = Some (main_fatal DeadlineExceeded)) /\
  (forall t d, In (t, d, None) (shutdowns (trace cfg)) -> status cfg' <> Exited 1).
Proof.
  intros Hr Hne Hle Hrun. rewrite main_start in Hr.
  destruct (reachable_steady cfg Hr) as (a & -> & Hs & Ht).
  destruct (run_from_state ls a cfg' Hs Ht Hrun) as (a' & Hm & -> & Hs' & Ht').
  change (trace (state c a)) with (p_trace a) in *.
  assert (Hd : exists d, pm a = M_returned d).
  { rewrite (one_shutdown _ _ Hs) in Hne. destruct (pm a); try contradiction. eauto. }
  destruct Hd as [d Hd].
  destruct (moves_after_shutdown ls a a' d Hs Ht Hd Hm) as (Hp & Hl & Hsh).
  rewrite Hle in Hl.
  pose proof (listen_failed _ _ Hs') as Hlf. rewrite Hl in Hlf.
  pose proof (shut_stays _ _ Ht') as Hsd. rewrite Hp in Hsd.
  pose proof (exits _ _ Hs') as Hex. unfold exit_ok in Hex.
  pose proof (one_shutdown _ _ Hs) as Hone. rewrite Hd in Hone.
  clear Hrun Hr Hne Hm.
  split; [|split].
  - intros ans cfg'' Hstep. rewrite (step_state c _ _ Hs') in Hstep.
    destruct a' as [m g h q sv lg tr st]; simpl in *. subst m sv.
    unfold move in Hstep; simpl in Hstep.
    destruct st; try discriminate Hstep.
    unfold move_listen in Hstep; simpl in Hstep.
    destruct h; try discriminate Hlf; simpl in Hstep;
      inversion Hstep; subst cfg''; simpl; auto.
  - intros Hst. simpl in Hst. rewrite Hst in Hex.
    destruct Hex as [(Hc & _)|(_ & [(e & He & Hlast)|(e & _ & Hpl & _)])].
    + discriminate.
    + rewrite Hp in He. simpl in He. unfold shutdown_result in He. simpl in He.
      destruct (d <=? apiserver.defaultStopTimeout); [discriminate|].
      inversion He; subst e. exact Hlast.
    + rewrite Hpl in Hlf. discriminate.
  - intros t d0 Hin. rewrite Hone in Hin. destruct Hin as [Hin|[]].
    inversion Hin as [[Ht0 Hd0 Hres]]. subst d0.
    intros Hst. simpl in Hst. rewrite Hst in Hex.
    destruct Hex as [(Hc & _)|(_ & [(e & He & _)|(e & _ & Hpl & _)])].
    + discriminate.
    + rewrite Hp in He. simpl in He. congruence.
    + rewrite Hpl in Hlf. discriminate.
Qed.

(** X18: the process binds its listener at most once, to the address of
    the flag [addr], which is not blank; while the server is listening,
    exactly this one bind has happened and it succeeded. *)
Theorem bound_once_to_the_given_address (cfg : Config) :
  reachable (main.main Args c) cfg ->
  (length (binds (trace cfg)) <= 1)%nat /\
  (forall x r, In (x, r) (binds (trace cfg)) ->
     x = cli.String c "addr" /\ x <> EmptyString) /\
  (server cfg = Listening -> binds (trace cfg) = [(cli.String c "addr", None)]).
Proof.
  intros Hr. destruct (reachable_steady cfg Hr) as (a & -> & Hs & Ht).
  change (trace (state c a)) with (p_trace a) in *.
  change (server (state c a)) with (p_server a).
  pose proof (bound_once _ _ Ht) as Hbo.
  pose proof (bound_addr _ _ Ht) as Hba.
  pose proof (bind_started _ _ Hs) as Hbs.
  pose proof (addr_given _ _ Hs) as Hag.
  split; [exact Hbo|]. split.
  - intros x r Hin. pose proof (Hba _ _ Hin) as Hx. split; [exact Hx|].
    destruct (started (pm a)) eqn:Hst.
    + intros Hb. subst x. rewrite Hb in Hag.
      destruct (pm a); try discriminate.
    + rewrite (Hbs eq_refl) in Hin. destruct Hin.
  - exact (listening_bound _ _ Ht).
Qed.

End Flags.


Lemma shutdown_timeout_is_fatal_witness :
  reachable (main.main Args sample_flags) (after sample_flags run_slow_shutdown) /\
  In (Some (30 * time.Second), 31 * time.Second, Some DeadlineExceeded)
     (shutdowns (trace (after sample_flags run_slow_shutdown))) /\
  30 * time.Second < 31 * time.Second /\
  status (after sample_flags run_slow_shutdown) = Running /\
  exists cfg',
    step (Sched 0 Silent) (after sample_flags run_slow_shutdown) = Some cfg' /\
    status cfg' = Exited 1.
Proof.
  assert (H : reachable (main.main Args sample_flags)
                (after sample_flags run_slow_shutdown)).
  { apply after_reachable. vm_compute. reflexivity. }
  assert (Hin : In (Some (30 * time.Second), 31 * time.Second, Some DeadlineExceeded)
                   (shutdowns (trace (after sample_flags run_slow_shutdown)))).
  { vm_compute. left. reflexivity. }
  assert (Hd : 30 * time.Second < 31 * time.Second).
  { vm_compute. reflexivity. }
  assert (Hrun : status (after sample_flags run_slow_shutdown) = Running).
  { vm_compute. reflexivity. }
  split; [exact H|]. split; [exact Hin|]. split; [exact Hd|]. split; [exact Hrun|].
  destruct (shutdown_timeout_is_fatal sample_flags _ _ _ _ H Hin Hd)
    as (_ & _ & _ & Hstep).
  destruct (Hstep Hrun Silent) as (cfg' & Hs & Hst & _).
  exists cfg'. split; [exact Hs|exact Hst].
Defined.

Lemma storage_is_opened_before_the_address_is_checked_witness :
  reachable (main.main Args blank_flags) (after blank_flags run_to_wait) /\
  cli.String blank_flags "addr" = EmptyString /\
  status (after blank_flags run_to_wait) = Exited 1 /\
  exists r,
    opens (trace (after blank_flags run_to_wait))
      = [(cli.String blank_flags "database-url", r)].
Proof.
  assert (H : reachable (main.main Args blank_flags) (after blank_flags run_to_wait)).
  { apply after_reachable. vm_compute. reflexivity. }
  assert (Hst : status (after blank_flags run_to_wait) = Exited 1).
  { vm_compute. reflexivity. }
  split; [exact H|]. split; [reflexivity|]. split; [exact Hst|].
  exact (proj1 (storage_is_opened_before_the_address_is_checked blank_flags _ H eq_refl)
           1 Hst).
Defined.

Lemma signals_while_running_witness :
  reachable (main.main Args sample_flags) (after sample_flags run_listening) /\
  status (after sample_flags run_listening) = Running /\
  exists cfg',
    step (Deliver os.SIGHUP) (after sample_flags run_listening) = Some cfg' /\
    status cfg' = Killed os.SIGHUP.
Proof.
  assert (H : reachable (main.main Args sample_flags) (after sample_flags run_listening)).
  { apply after_reachable. vm_compute. reflexivity. }
  assert (Hrun : status (after sample_flags run_listening) = Running).
  { vm_compute. reflexivity. }
  split; [exact H|]. split; [exact Hrun|].
  destruct (signals_while_running sample_flags _ os.SIGHUP H Hrun)
    as (cfg' & Hs & _ & Hk).
  exists cfg'. split; [exact Hs|]. apply Hk. right. reflexivity.
Defined.

Lemma shutdown_does_not_fail_the_listener_witness :
  reachable (main.main ["api-server"; "start"] sample_flags)
    (after sample_flags run_shutdown) /\
  shutdowns (trace (after sample_flags run_shutdown)) <> [] /\
  listen_errors (trace (after sample_flags run_shutdown)) = [] /\
  run [Deliver os.SIGTERM; Sched 2 Silent] (after sample_flags run_shutdown)
    = Some (after sample_flags (run_shutdown ++ [Deliver os.SIGTERM; Sched 2 Silent])) /\
  status (after sample_flags (run_shutdown ++ [Deliver os.SIGTERM; Sched 2 Silent]))
    <> Exited 1.
Proof.
  assert (H : reachable (main.main ["api-server"; "start"] sample_flags)
                (after sample_flags run_shutdown)).
  { apply after_reachable. vm_compute. reflexivity. }
  assert (Hne : shutdowns (trace (after sample_flags run_shutdown)) <> []).
  { vm_compute. discriminate. }
  assert (Hle : listen_errors (trace (after sample_flags run_shutdown)) = []).
  { vm_compute. reflexivity. }
  assert (Hrun : run [Deliver os.SIGTERM; Sched 2 Silent] (after sample_flags run_shutdown)
                 = Some (after sample_flags
                           (run_shutdown ++ [Deliver os.SIGTERM; Sched 2 Silent]))).
  { vm_compute. reflexivity. }
  assert (Hin : In (Some (30 * time.Second), 5 * time.Second, None)
                   (shutdowns (trace (after sample_flags run_shutdown)))).
  { vm_compute. left. reflexivity. }
  split; [exact H|]. split; [exact Hne|]. split; [exact Hle|]. split; [exact Hrun|].
  destruct (shutdown_does_not_fail_the_listener sample_flags "api-server" [] _ _ _
              H Hne Hle Hrun) as (_ & _ & Hnil).
  exact (Hnil _ _ Hin).
Defined.

Lemma bound_once_to_the_given_address_witness :
  reachable (main.main Args sample_flags) (after sample_flags run_listening) /\
  server (after sample_flags run_listening) = Listening /\
  binds (trace (after sample_flags run_listening)) = [(":3000", None)].
Proof.
  assert (H : reachable (main.main Args sample_flags) (after sample_flags run_listening)).
  { apply after_reachable. vm_compute. reflexivity. }
  assert (Hl : server (after sample_flags run_listening) = Listening).
  { vm_compute. reflexivity. }
  split; [exact H|]. split; [exact Hl|].
  exact (proj2 (proj2 (bound_once_to_the_given_address sample_flags _ H)) Hl).
Defined.


End lifecycle_facts.
